(** * Pipeline-GFS: the orchestration driver [pipeline.py]

    A shallow embedding of the driver that downloads GFS output, renders the
    figures and mails them: the freshness gate, the two subprocess wrappers,
    the zip helper, the e-mail stage and the orchestrator.

    Conventions of the embedding.
    - Strings are [string]s of bytes; [str.lower] acts on the ASCII letters.
    - A time stamp is a [Z] counting microseconds since the Unix epoch, the
      resolution of [datetime]; a UTC calendar date is the number of whole
      days since the epoch, which determines (year, month, day) and is
      determined by it.  The gate is embedded on the stamps [datetime] can
      hold (the years 1 to 9999, [representable]) and on the thresholds for
      which the float returned by [total_seconds] compares like the exact
      quotient ([exact_threshold]); outside them [datetime.fromtimestamp]
      raises and the float rounds, which [_latest_mtime] and
      [_should_skip_download] do not show.
    - A directory is a list of nodes, regular files and sub-directories;
      the file system maps the path of a directory to its contents.
    - Effects are threaded through a state-and-exception monad whose state
      holds the file system and the trace of external actions.  What the
      driver cannot decide (the clock, the environment, what a child process
      or the mail server answers) is read from a [host] record.
    - Left out: symbolic links, permissions and I/O errors of the file
      system; [mkdir] on an artifact directory succeeds, and the only
      failures are the exceptions the driver raises itself, a path the ZIP
      format cannot date, a failing child process and a failing mail
      exchange. *)

From stdpp Require Import base gmap strings list fin_maps sorting.
From Stdlib Require Import ZArith Ascii String Lia.

Local Open Scope string_scope.
Local Open Scope Z_scope.

(** ** Strings *)

Module Str.

(** [c.lower()] on one byte. *)
Definition lower_ascii (c : ascii) : ascii :=
  let n := N_of_ascii c in
  if ((65 <=? n) && (n <=? 90))%N then ascii_of_N (n + 32) else c.

(** [s.lower()] *)
Fixpoint lower (s : string) : string :=
  match s with
  | EmptyString => EmptyString
  | String c r => String (lower_ascii c) (lower r)
  end.

(** [sub in s] *)
Fixpoint contains (sub s : string) : bool :=
  String.prefix sub s ||
  match s with
  | EmptyString => false
  | String _ r => contains sub r
  end.

(** [s.split(sep, 1)] for a one-byte separator that occurs in [s]: the
    text before the first occurrence and the text after it. *)
Fixpoint split1 (sep : ascii) (s : string) : string * string :=
  match s with
  | EmptyString => (EmptyString, EmptyString)
  | String c r =>
      if Ascii.eqb c sep then (EmptyString, r)
      else let '(k, v) := split1 sep r in (String c k, v)
  end.

(** [s.endswith(suffix)], the test that the pattern [*suffix] performs. *)
Fixpoint endswith (s suffix : string) : bool :=
  String.eqb s suffix ||
  match s with
  | EmptyString => false
  | String _ r => endswith r suffix
  end.

End Str.

(** ** Directories *)

#[warnings="-register-all"]
Inductive node :=
| File (name : string) (mtime : Z) (data : string)
| Dir (name : string) (mtime : Z) (children : list node).

Definition node_name (n : node) : string :=
  match n with File s _ _ | Dir s _ _ => s end.

Definition node_mtime (n : node) : Z :=
  match n with File _ t _ | Dir _ t _ => t end.

Definition is_dir (n : node) : bool :=
  match n with File _ _ _ => false | Dir _ _ _ => true end.

(** A node and everything below it, as [Path.rglob("*")] yields them: files
    of any kind, directories included. *)
Fixpoint walk (n : node) : list node :=
  match n with
  | File _ _ _ => [n]
  | Dir _ _ children => n :: flat_map walk children
  end.

Abbreviation filesystem := (gmap string (list node)).

(** [Path(path).rglob("*")]; a path that is no directory yields nothing. *)
Definition rglob (fs : filesystem) (path : string) : list node :=
  match fs !! path with
  | Some children => flat_map walk children
  | None => []
  end.

(** ** The freshness gate *)

Definition US_PER_SECOND : Z := 1000000.
Definition US_PER_DAY : Z := 86400 * US_PER_SECOND.

(** [t.date()] of a UTC time stamp. *)
Definition utc_date (t : Z) : Z := t `div` US_PER_DAY.

(** The filter of [_latest_mtime]. *)
Definition is_grib_name (name : string) : bool :=
  Str.contains "grb2" (Str.lower name) || Str.contains "grib2" (Str.lower name).

(** [max(mtimes)] on a list with head [t]. *)
Definition max_of (t : Z) (ts : list Z) : Z := foldr Z.max t ts.

(** The newest stamp among the marked entries.  [datetime.fromtimestamp]
    turns it into a [datetime], which exists for the stamps that are
    [representable]; the embedding returns the stamp itself. *)
Definition _latest_mtime (fs : filesystem) (path : string) : option Z :=
  let mtimes :=
    node_mtime <$> filter (λ p, is_grib_name (node_name p) = true) (rglob fs path) in
  match mtimes with
  | [] => None
  | t :: ts => Some (max_of t ts)
  end.

(** The comparison of [total_seconds()] with [max_age_hours * 3600] is
    made on microseconds; the float that [total_seconds] returns compares
    the same way for every [exact_threshold]. *)
Definition _should_skip_download
    (now : Z) (fs : filesystem) (data_dir : string) (max_age_hours : Z) : bool :=
  match _latest_mtime fs data_dir with
  | None => false
  | Some latest =>
      let fresh_enough := bool_decide (now - latest < max_age_hours * 3600 * US_PER_SECOND) in
      let same_day := bool_decide (utc_date latest = utc_date now) in
      fresh_enough || same_day
  end.

(** ** External actions, exceptions and the monad *)

(** What [print] writes; the elapsed seconds of the two timing lines are
    left out. *)
Inductive line :=
| UpToDate
| GfsFinished
| CreatingFigures
| FiguresProduced
| Sending (count : nat) (to : string)
| EmailSent
| PipelineFinished.

Abbreviation environment := (gmap string string).

(** One member of the archive: [payload] is the file's bytes, and [None]
    for the entry [ZipFile.write] makes of a directory. *)
Record zip_entry := { arcname : string; payload : option string }.

Record email := {
  msg_from : string;
  msg_to : string;
  msg_subject : string;
  msg_content : string;
  msg_attachment : list zip_entry;
  msg_filename : string
}.

Inductive event :=
| Mkdir (path : string)
| Print (l : line)
| Subprocess (argv : list string) (env : environment)
| SmtpConnect (server : string) (port : Z)
| SmtpLogin (user password : string)
| SmtpSend (msg : email)
| SmtpQuit.

Inductive exn :=
| ValueError (msg : string)
| FileNotFoundError (msg : string)
| CalledProcessError (returncode : Z)
| OSError
| SMTPException
| StructError
| OverflowError.

Inductive result (A : Type) :=
| Ok (a : A)
| Raise (e : exn).
Arguments Ok {A} a.
Arguments Raise {A} e.

Record world := { w_fs : filesystem; w_trace : list event }.

(** How a child process ended. *)
Inductive completed := Exited (returncode : Z) | LaunchFailed.

(** The surroundings of one run. *)
Record host := {
  environ : environment;
  sys_executable : string;
  resolve : string → string;
  utc_now : Z;
  (** [time.localtime(t)[0]] for a stamp [t]: the year in the time zone of
      the host, or the exception [time.localtime] raises for a stamp the
      platform cannot convert. *)
  localtime_year : Z → result Z;
  child : list string → environment → filesystem → completed * filesystem;
  smtp_accepts : string → Z → bool;
  smtp_authenticates : string → string → bool;
  smtp_delivers : email → bool
}.

Definition io (A : Type) : Type := world → result A * world.

Global Instance io_ret : MRet io := λ A a w, (Ok a, w).
Global Instance io_bind : MBind io := λ A B f m w,
  match m w with
  | (Ok a, w') => f a w'
  | (Raise e, w') => (Raise e, w')
  end.

Definition raise {A} (e : exn) : io A := λ w, (Raise e, w).
Definition emit (e : event) : io () :=
  λ w, (Ok (), {| w_fs := w_fs w; w_trace := w_trace w ++ [e] |}).
Definition get_fs : io filesystem := λ w, (Ok (w_fs w), w).
Definition put_fs (fs : filesystem) : io () :=
  λ w, (Ok (), {| w_fs := fs; w_trace := w_trace w |}).
Definition print (l : line) : io () := emit (Print l).

(** A computation that touches nothing outside. *)
Definition lift {A} (r : result A) : io A := λ w, (r, w).

(** [Path(path).mkdir(parents=True, exist_ok=True)] *)
Definition mkdir (path : string) : io () :=
  emit (Mkdir path);;
  fs ← get_fs;
  match fs !! path with
  | Some _ => mret ()
  | None => put_fs (<[path := []]> fs)
  end.

(** [with] block: [body] runs, then [finally] runs whatever [body] did. *)
Definition ensuring {A} (body : io A) (finally : io ()) : io A := λ w,
  match body w with
  | (r, w') =>
      match finally w' with
      | (Ok _, w'') => (r, w'')
      | (Raise e, w'') => (Raise e, w'')
      end
  end.

(** ** Subprocess wrappers *)

(** [subprocess.run(argv, check=True, env=env)]: the child may change the
    file system; a non-zero exit status and a failed launch both raise. *)
Definition subprocess_run (h : host) (argv : list string) (env : environment) : io () :=
  emit (Subprocess argv env);;
  fs ← get_fs;
  let '(c, fs') := child h argv env fs in
  put_fs fs';;
  match c with
  | Exited 0 => mret ()
  | Exited rc => raise (CalledProcessError rc)
  | LaunchFailed => raise OSError
  end.

(** [if extra_env: env.update(extra_env)]: the keys of [extra_env] win. *)
Definition update_env (env : environment) (extra_env : option environment) : environment :=
  match extra_env with
  | Some extra => if decide (extra = ∅) then env else extra ∪ env
  | None => env
  end.

Definition run_gfs_download (h : host)
    (data_dir python_executable gfs_script : string)
    (extra_env : option environment)
    (max_age_hours : Z) (force_download : bool) : io () :=
  let data_path := data_dir in
  mkdir data_path;;
  fs ← get_fs;
  if negb force_download && _should_skip_download (utc_now h) fs data_path max_age_hours
  then print UpToDate
  else
    let env := environ h in
    let env := <["DATA_DIR" := resolve h data_path]> env in
    let env := update_env env extra_env in
    subprocess_run h [python_executable; gfs_script] env;;
    print GfsFinished.

Definition run_forecast_plot (h : host)
    (input_dir output_dir python_executable forecast_script : string)
    (extra_env : option environment) : io () :=
  print CreatingFigures;;
  mkdir output_dir;;
  let env := environ h in
  let env := <["INPUT_DIR" := resolve h input_dir]> env in
  let env := <["OUTPUT_DIR" := resolve h output_dir]> env in
  let env := update_env env extra_env in
  subprocess_run h [python_executable; forecast_script] env;;
  print FiguresProduced.

(** ** Zip helper *)

(** What keeps [zf.write(path, ...)] from storing a path.  The entry is
    dated by the local time of the path's modification stamp, and the ZIP
    format holds the years 1980 to 2107: [ZipInfo] refuses an earlier year
    with [ValueError], and a later one does not fit the 16 bits of the date
    in the file header, which [struct.pack] refuses.  This holds for files
    and directories alike. *)
Definition zip_refuses (h : host) (path : node) : option exn :=
  match localtime_year h (node_mtime path) with
  | Raise e => Some e
  | Ok year =>
      if year <? 1980 then Some (ValueError "ZIP does not support timestamps before 1980")
      else if 2107 <? year then Some StructError
      else None
  end.

(** The entry [zf.write(path, arcname=path.name)] stores for a path it
    takes: a regular file is stored under its name with its bytes; for a
    directory [ZipInfo.from_file] appends a slash to the name and the entry
    is empty. *)
Definition zip_write (path : node) : zip_entry :=
  match path with
  | File name _ data => {| arcname := name; payload := Some data |}
  | Dir name _ _ => {| arcname := name ++ "/"; payload := None |}
  end.

(** The loop of [_zip_images]: the first path that [zf.write] refuses ends
    it, and the archive built so far is lost with the buffer. *)
Fixpoint _zip_images (h : host) (image_paths : list node) : result (list zip_entry) :=
  match image_paths with
  | [] => Ok []
  | path :: rest =>
      match zip_refuses h path with
      | Some e => Raise e
      | None =>
          match _zip_images h rest with
          | Ok entries => Ok (zip_write path :: entries)
          | Raise e => Raise e
          end
      end
  end.

(** ** E-mail stage *)

(** [Path(image_dir).glob("*.png")]: the children of the directory, of any
    kind, whose name ends in [.png]. *)
Definition glob_png (fs : filesystem) (image_dir : string) : list node :=
  match fs !! image_dir with
  | Some children => filter (λ p, Str.endswith (node_name p) ".png" = true) children
  | None => []
  end.

(** [sorted] on paths of one directory: by name, stable. *)
Fixpoint insert_path (p : node) (l : list node) : list node :=
  match l with
  | [] => [p]
  | q :: r =>
      if String.leb (node_name p) (node_name q) then p :: q :: r
      else q :: insert_path p r
  end.

Definition sorted (l : list node) : list node := foldr insert_path [] l.

(** Truth value of an optional string and of an optional list. *)
Definition truthy (o : option string) : bool :=
  match o with
  | Some s => negb (String.eqb s "")
  | None => false
  end.

Definition truthy_list {A} (o : option (list A)) : bool :=
  match o with
  | Some (_ :: _) => true
  | _ => false
  end.

(** [password or os.getenv("EMAIL_PASSWORD")] *)
Definition credential (h : host) (password : option string) : option string :=
  if truthy password then password else environ h !! "EMAIL_PASSWORD".

(** The [with smtplib.SMTP_SSL(...)] block. *)
Definition smtp_session (h : host) (smtp_server : string) (port : Z)
    (sender pw : string) (msg : email) : io () :=
  emit (SmtpConnect smtp_server port);;
  if smtp_accepts h smtp_server port then
    ensuring
      (emit (SmtpLogin sender pw);;
       if smtp_authenticates h sender pw then
         emit (SmtpSend msg);;
         if smtp_delivers h msg then mret () else raise SMTPException
       else raise SMTPException)
      (emit SmtpQuit)
  else raise OSError.

Definition send_images_via_email (h : host)
    (image_dir : string) (sender : option string) (recipients : option (list string))
    (subject body smtp_server : string) (port : Z)
    (password : option string) (zip_name : string) : io () :=
  if negb (truthy sender) || negb (truthy_list recipients) then
    raise (ValueError "`sender` and `recipients` are required for e‑mail sending.")
  else
    match credential h password with
    | None => raise (ValueError "Set `EMAIL_PASSWORD` in the environment or pass `--password`.")
    | Some pw =>
        fs ← get_fs;
        let png_paths := sorted (glob_png fs image_dir) in
        if bool_decide (png_paths = []) then
          raise (FileNotFoundError ("No PNG files found in " ++ image_dir ++ "."))
        else
          let to := String.concat ", " (default [] recipients) in
          print (Sending (List.length png_paths) to);;
          zip_bytes ← lift (_zip_images h png_paths);
          let msg := {| msg_from := default "" sender; msg_to := to;
                        msg_subject := subject; msg_content := body;
                        msg_attachment := zip_bytes; msg_filename := zip_name |} in
          smtp_session h smtp_server port (default "" sender) pw msg;;
          print EmailSent
    end.

(** ** Orchestrator *)

Module args.
(** The [argparse.Namespace] that [run_pipeline] reads. *)
Record t := {
  data_dir : string;
  fig_dir : string;
  gfs_script : string;
  forecast_script : string;
  env : option (list string);
  max_age_hours : Z;
  force_download : bool;
  send_email : bool;
  sender : option string;
  recipients : option (list string);
  subject : string;
  body : string;
  smtp_server : string;
  port : Z;
  password : option string;
  zip_name : string
}.
End args.

(** The loop over [args.env]. *)
Fixpoint parse_env (kvs : list string) (extra_env : environment) : result environment :=
  match kvs with
  | [] => Ok extra_env
  | kv :: rest =>
      if negb (Str.contains "=" kv) then
        Raise (ValueError "Environment variables via --env must be in KEY=value form.")
      else
        let '(k, v) := Str.split1 "=" kv in
        parse_env rest (<[k := v]> extra_env)
  end.

(** [if args.env:] skips the loop for [None] and for the empty list, which
    the loop over no entries does as well. *)
Definition run_pipeline (h : host) (a : args.t) : io () :=
  extra_env ← lift (parse_env (default [] (args.env a)) ∅);
  run_gfs_download h (args.data_dir a) (sys_executable h) (args.gfs_script a)
    (Some extra_env) (args.max_age_hours a) (args.force_download a);;
  run_forecast_plot h (args.data_dir a) (args.fig_dir a) (sys_executable h)
    (args.forecast_script a) (Some extra_env);;
  (if args.send_email a then
     send_images_via_email h (args.fig_dir a) (args.sender a) (args.recipients a)
       (args.subject a) (args.body a) (args.smtp_server a) (args.port a)
       (args.password a) (args.zip_name a)
   else mret ());;
  print PipelineFinished.

(** * Vocabulary of the statements *)

(** [inside p l]: the node [p] is one of the nodes [l] or lies below one of
    them, at any depth. *)
Inductive inside (p : node) : list node → Prop :=
| inside_here l : p ∈ l → inside p l
| inside_below name mtime children l :
    Dir name mtime children ∈ l → inside p children → inside p l.

Section node_induction.
Variable P : node → Prop.
Hypothesis file_case : ∀ name mtime data, P (File name mtime data).
Hypothesis dir_case :
  ∀ name mtime children, Forall P children → P (Dir name mtime children).

Fixpoint node_tree_ind (n : node) : P n :=
  match n with
  | File name mtime data => file_case name mtime data
  | Dir name mtime children =>
      dir_case name mtime children
        ((fix all (l : list node) : Forall P l :=
            match l with
            | [] => @List.Forall_nil node P
            | x :: r => @List.Forall_cons node P x r (node_tree_ind x) (all r)
            end) children)
  end.
End node_induction.

(** A file of any kind that the gate counts: it lies under the directory
    [d], at any depth, and its name carries one of the two markers. *)
Definition grib_under (fs : filesystem) (d : string) (p : node) : Prop :=
  ∃ children, fs !! d = Some children ∧ inside p children ∧
              is_grib_name (node_name p) = true.

(** [t] is the greatest modification time among those files. *)
Definition newest_grib (fs : filesystem) (d : string) (t : Z) : Prop :=
  (∃ p, grib_under fs d p ∧ node_mtime p = t) ∧
  (∀ p, grib_under fs d p → node_mtime p ≤ t).

(** ** The words of the gate's contract

    The contract speaks of a name that contains a marker whatever the case
    of its letters, of the UTC calendar date of a stamp, and of stamps and
    thresholds in their ordinary ranges.  These are said here on their own,
    without the helpers of the embedding. *)

(** The byte [c] is the small letter or digit [l], or the capital of [l]:
    the capital of a small letter lies 32 below it. *)
Definition letter_of (l c : ascii) : Prop :=
  c = l ∨ ((97 <= N_of_ascii l)%N ∧ (N_of_ascii l <= 122)%N ∧
           N_of_ascii l = (N_of_ascii c + 32)%N).

(** [s] spells [marker] up to the case of its letters. *)
Fixpoint spells (marker s : string) : Prop :=
  match marker, s with
  | EmptyString, EmptyString => True
  | String l marker', String c s' => letter_of l c ∧ spells marker' s'
  | _, _ => False
  end.

(** The name holds [grb2] or [grib2] in some mix of cases. *)
Definition marked (name : string) : Prop :=
  ∃ before m after,
    name = (before ++ m ++ after)%string ∧ (spells "grb2" m ∨ spells "grib2" m).

(** An entry of any kind, regular file or directory, that lies under the
    directory [d] at any depth and has a marked name. *)
Definition marked_under (fs : filesystem) (d : string) (p : node) : Prop :=
  ∃ children, fs !! d = Some children ∧ inside p children ∧ marked (node_name p).

(** [t] is the greatest modification time among those entries. *)
Definition newest_marked (fs : filesystem) (d : string) (t : Z) : Prop :=
  (∃ p, marked_under fs d p ∧ node_mtime p = t) ∧
  (∀ p, marked_under fs d p → node_mtime p ≤ t).

(** A regular file under the directory [d], at any depth, with a marked
    name. *)
Definition marked_file_under (fs : filesystem) (d : string) (p : node) : Prop :=
  marked_under fs d p ∧ is_dir p = false.

(** [t] and [now] lie in the same UTC calendar day: the day that begins
    [day] times 86400 seconds after the epoch. *)
Definition same_utc_day (t now : Z) : Prop :=
  ∃ day, day * 86400000000 ≤ t < (day + 1) * 86400000000 ∧
         day * 86400000000 ≤ now < (day + 1) * 86400000000.

(** The stamps a [datetime] holds, from 0001-01-01 00:00:00 to 9999-12-31
    23:59:59.999999 UTC; for any other [datetime.fromtimestamp] raises. *)
Definition DATETIME_MIN : Z := -62135596800000000.
Definition DATETIME_MAX : Z := 253402300799999999.

Definition representable (t : Z) : Prop := DATETIME_MIN ≤ t ≤ DATETIME_MAX.

(** The positive thresholds for which [total_seconds() < max_age_hours * 3600]
    decides like the exact quotient.  An elapsed time is a whole number of
    microseconds; up to 2^34 seconds neighbouring floats lie less than two
    microseconds apart, so an elapsed time below the threshold is not
    rounded up to it.  Beyond, it can be. *)
Definition exact_threshold (max_age_hours : Z) : Prop :=
  0 < max_age_hours ∧ max_age_hours * 3600 ≤ 2 ^ 34.

(** The year of the proleptic Gregorian calendar in which a day falls, the
    day counted from 1970-01-01. *)
Definition year_of_day (days : Z) : Z :=
  let z := days + 719468 in
  let era := z `div` 146097 in
  let doe := z `mod` 146097 in
  let yoe := (doe - doe `div` 1460 + doe `div` 36524 - doe `div` 146096) `div` 365 in
  let doy := doe - (365 * yoe + yoe `div` 4 - yoe `div` 100) in
  let mp := (5 * doy + 2) `div` 153 in
  era * 400 + yoe + (if mp <? 10 then 0 else 1).

(** A child of the directory [d], of any kind, named [stem.png]. *)
Definition png_in (fs : filesystem) (d : string) (p : node) : Prop :=
  ∃ children, fs !! d = Some children ∧ p ∈ children ∧
              ∃ stem, node_name p = stem ++ ".png".

(** The file system once [mkdir] has run on [path]. *)
Definition made (fs : filesystem) (path : string) : filesystem :=
  match fs !! path with
  | Some _ => fs
  | None => <[path := []]> fs
  end.

(** The exception [subprocess.run(check=True)] raises for a child that did
    not exit with status 0. *)
Definition exn_of (c : completed) : exn :=
  match c with
  | Exited rc => CalledProcessError rc
  | LaunchFailed => OSError
  end.

(** What [subprocess.run(check=True)] returns or raises. *)
Definition outcome (c : completed) : result () :=
  match c with
  | Exited 0 => Ok ()
  | _ => Raise (exn_of c)
  end.

(** The line a wrapper prints after its child, when the child succeeded. *)
Definition after_child (c : completed) (l : line) : list event :=
  match outcome c with
  | Ok _ => [Print l]
  | Raise _ => []
  end.

(** The environment each wrapper hands to its child. *)
Definition download_env (h : host) (data_dir : string)
    (extra_env : option environment) : environment :=
  update_env (<["DATA_DIR" := resolve h data_dir]> (environ h)) extra_env.

Definition render_env (h : host) (input_dir output_dir : string)
    (extra_env : option environment) : environment :=
  update_env (<["OUTPUT_DIR" := resolve h output_dir]>
                (<["INPUT_DIR" := resolve h input_dir]> (environ h))) extra_env.

(** The exchange with the mail server and how it ends. *)
Definition smtp_dialogue (h : host) (smtp_server : string) (port : Z)
    (sender pw : string) (msg : email) : result () * list event :=
  if smtp_accepts h smtp_server port then
    if smtp_authenticates h sender pw then
      (if smtp_delivers h msg then Ok () else Raise SMTPException,
       [SmtpConnect smtp_server port; SmtpLogin sender pw; SmtpSend msg; SmtpQuit])
    else
      (Raise SMTPException,
       [SmtpConnect smtp_server port; SmtpLogin sender pw; SmtpQuit])
  else (Raise OSError, [SmtpConnect smtp_server port]).

(** The message the e-mail stage builds around the archive of [paths]. *)
Definition message_for (sender : option string) (recipients : option (list string))
    (subject body zip_name : string) (paths : list node) : email :=
  {| msg_from := default "" sender;
     msg_to := String.concat ", " (default [] recipients);
     msg_subject := subject; msg_content := body;
     msg_attachment := zip_write <$> paths; msg_filename := zip_name |}.

(** The name [ZipFile.write] gives the entry of a path. *)
Definition member_name (p : node) : string :=
  if is_dir p then node_name p ++ "/" else node_name p.

(** The external actions of a run that took the world from [w] to [w']. *)
Definition events_since (w w' : world) : list event :=
  drop (List.length (w_trace w)) (w_trace w').

(** * A sample installation

    A small concrete host, file system and argument set on which the
    statements below are exercised. *)

Module sample.

Definition grib : node := File "gfs.t00z.pgrb2.0p25.f000" 7000000 "GRIB".

(** 2024-06-01 00:00:00 UTC. *)
Definition june_2024 : Z := 1717200000 * US_PER_SECOND.

(** Figures written in the first minute of that day. *)
Definition a_png : node := File "a.png" (june_2024 + 10 * US_PER_SECOND) "A".
Definition b_png : node := File "b.png" (june_2024 + 20 * US_PER_SECOND) "B".
Definition d_png : node := Dir "d.png" (june_2024 + 11 * US_PER_SECOND) [].

Definition figures : list node :=
  [b_png; a_png; File "notes.txt" (june_2024 + 30 * US_PER_SECOND) "N"].

(** [DATA] holds nothing the gate counts; [OLD] holds a GRIB file in a
    sub-directory, last modified seven seconds after the epoch; [FIGS] holds
    two figures and [MIXED] a figure and a directory named like one. *)
Definition fs : filesystem :=
  {[ "DATA" := [File "README" 1 "r"];
     "OLD" := [Dir "run" 5 [grib]];
     "FIGS" := figures;
     "MIXED" := [a_png; d_png] ]}.

(** A data directory that holds an empty directory named [grib2] and
    nothing else. *)
Definition lone_directory : filesystem :=
  {[ "DATA" := [Dir "grib2" june_2024 []] ]}.

(** A figure directory whose only figure was last modified in 1979. *)
Definition old_figures : filesystem :=
  {[ "FIGS" := [File "a.png" (300000000 * US_PER_SECOND) "A"] ]}.

(** A host whose children end as [download] and [render] say and leave
    the file system as it is, whose mail server takes everything, and whose
    time zone is UTC. *)
Definition host_with (download render : completed) (env : environment) : host :=
  {| environ := env;
     sys_executable := "/usr/bin/python3";
     resolve := λ p, "/srv/" ++ p;
     utc_now := 3 * US_PER_SECOND;
     localtime_year := λ t, Ok (year_of_day (t `div` US_PER_DAY));
     child := λ argv _ fs,
       (if bool_decide (argv = ["/usr/bin/python3"; "GFS.py"]) then download else render, fs);
     smtp_accepts := λ _ _, true;
     smtp_authenticates := λ _ _, true;
     smtp_delivers := λ _, true |}.

Definition h : host := host_with (Exited 0) (Exited 0) {[ "HOME" := "/root" ]}.

Definition w : world := {| w_fs := fs; w_trace := [] |}.

Definition a : args.t :=
  {| args.data_dir := "DATA"; args.fig_dir := "FIGS";
     args.gfs_script := "GFS.py"; args.forecast_script := "forecast.py";
     args.env := Some ["LEVEL=debug"];
     args.max_age_hours := 6; args.force_download := false;
     args.send_email := true;
     args.sender := Some "ops@example.org";
     args.recipients := Some ["a@example.org"; "b@example.org"];
     args.subject := "GFS Forecast"; args.body := "Good morning";
     args.smtp_server := "smtp.example.org"; args.port := 465;
     args.password := Some "hunter2"; args.zip_name := "PVU_Figures.zip" |}.

(** The same arguments with other [--env] entries. *)
Definition with_env (env : option (list string)) : args.t :=
  {| args.data_dir := args.data_dir a; args.fig_dir := args.fig_dir a;
     args.gfs_script := args.gfs_script a;
     args.forecast_script := args.forecast_script a;
     args.env := env;
     args.max_age_hours := args.max_age_hours a;
     args.force_download := args.force_download a;
     args.send_email := args.send_email a;
     args.sender := args.sender a; args.recipients := args.recipients a;
     args.subject := args.subject a; args.body := args.body a;
     args.smtp_server := args.smtp_server a; args.port := args.port a;
     args.password := args.password a; args.zip_name := args.zip_name a |}.

(** The e-mail stage on the sample host. *)
Definition send (h : host) (image_dir : string) (sender : option string)
    (recipients : option (list string)) (password : option string) : io () :=
  send_images_via_email h image_dir sender recipients "GFS Forecast" "Good morning"
    "smtp.example.org" 465 password "PVU_Figures.zip".

(** What a successful run of [send] does, for the sorted paths [paths]. *)
Definition exchange (sender pw : string) (recipients : list string)
    (paths : list node) : list event :=
  let msg := message_for (Some sender) (Some recipients) "GFS Forecast" "Good morning"
               "PVU_Figures.zip" paths in
  [Print (Sending (List.length paths) (msg_to msg));
   SmtpConnect "smtp.example.org" 465;
   SmtpLogin sender pw;
   SmtpSend msg;
   SmtpQuit;
   Print EmailSent].

End sample.

(** * The rest of the driver's vocabulary *)

(** The actions that reach the mail server. *)
Definition is_smtp (e : event) : bool :=
  match e with
  | SmtpConnect _ _ | SmtpLogin _ _ | SmtpSend _ | SmtpQuit => true
  | _ => false
  end.

(** The launches of a child process. *)
Definition is_subprocess (e : event) : bool :=
  match e with
  | Subprocess _ _ => true
  | _ => false
  end.

(** The [--env] entries that set [k], as the loop of [run_pipeline] reads
    them: the value is the text after the first [=]. *)
Definition sets_key (k : string) (kv : string) : bool :=
  Str.contains "=" kv && String.eqb (Str.split1 "=" kv).1 k.

(** * The rendering script [forecast.py]

    The script is embedded with the plotting and GRIB libraries as a
    [library] of answers: each call into them either succeeds or raises an
    exception derived from [Exception].  The control flow around those
    calls, the file names and the date formatting are the script's own.
    Two calls of the script stand before every [try] and end it when they
    raise: the [mkdir] at the top of the module and the [print] that
    announces a file, which fails on a name the output stream cannot write;
    the library answers for them as well.  The other lines are taken to
    print, as they do on a stream that writes UTF-8.  File names are strings
    of bytes, which is what [fnmatch] sees of a name that is ASCII. *)

Module forecast.

Inductive exception :=
| FileNotFoundError
| ValueError
| RuntimeError
| OtherException (name : string).

Inductive product := Temp2m | Wind10m | PressureThickness | TotPrec.

(** A valid time as [pd.to_datetime] holds it. *)
Record timestamp := {
  year : nat; month : nat; day : nat; hour : nat; minute : nat
}.

(** What the script prints and the figures it writes. *)
Inductive output :=
| MakeOutputDir
| Processing (base : string)
| Saved (filename : string)
| Arrow (filename : string)
| TpNotFound
| ErrorProcessing (base : string) (err : exception).

Record library := {
  (** [Path(OUTPUT_DIR).mkdir(parents=True, exist_ok=True)] *)
  make_output_dir : option exception;
  (** [print(f"Processing {base} …")] *)
  announce : string → option exception;
  (** [_open_var(grib, short_name, ..., level=...)] *)
  open_var : string → string → option nat → option exception;
  (** selecting and converting the fields of the data sets just opened *)
  fields : string → product → option exception;
  (** [t_ds["valid_time"].values] through [pd.to_datetime] *)
  valid_time : string → exception + timestamp;
  (** the drawing calls of one figure *)
  draw : string → product → option exception;
  (** [fig.savefig] *)
  savefig : string → option exception
}.

(** Output so far and how the computation stands. *)
Definition script (A : Type) : Type := list output * (exception + A).

Definition ret {A} (a : A) : script A := ([], inr a).
Definition fail {A} (e : exception) : script A := ([], inl e).
Definition say (o : output) : script () := ([o], inr ()).

Definition bind {A B} (m : script A) (k : A → script B) : script B :=
  match m with
  | (out, inl e) => (out, inl e)
  | (out, inr a) => let '(out', r) := k a in ((out ++ out')%list, r)
  end.

Definition step (answer : option exception) : script () :=
  match answer with
  | Some e => fail e
  | None => ret ()
  end.

(** ** Wildcards *)

Inductive glob_token := Lit (c : ascii) | Question | Star.

(** The pattern has no bracket expression. *)
Fixpoint tokens (pattern : string) : list glob_token :=
  match pattern with
  | EmptyString => []
  | String c r =>
      (if Ascii.eqb c "?" then Question
       else if Ascii.eqb c "*" then Star else Lit c) :: tokens r
  end.

(** [fnmatch.fnmatchcase(s, pattern)] on the tokens of the pattern. *)
Fixpoint matches (pat : list glob_token) (s : string) : bool :=
  match pat with
  | [] => match s with EmptyString => true | String _ _ => false end
  | Lit c :: pat' =>
      match s with
      | String a r => Ascii.eqb a c && matches pat' r
      | EmptyString => false
      end
  | Question :: pat' =>
      match s with
      | String _ r => matches pat' r
      | EmptyString => false
      end
  | Star :: pat' =>
      (fix skip (s : string) : bool :=
         matches pat' s ||
         match s with
         | String _ r => skip r
         | EmptyString => false
         end) s
  end.

Definition GFS_PATTERN : string := "gfs.t??z.pgrb2.0p25.f*".

(** [sorted] on strings. *)
Fixpoint insert_name (s : string) (l : list string) : list string :=
  match l with
  | [] => [s]
  | t :: r => if String.leb s t then s :: t :: r else t :: insert_name s r
  end.

Definition sort_names (l : list string) : list string := foldr insert_name [] l.

(** [sorted(glob(os.path.join(INPUT_DIR, pattern)))], by base name, for the
    names [names] of the entries of [INPUT_DIR]. *)
Definition grib_files (names : list string) : list string :=
  sort_names (filter (λ n, matches (tokens GFS_PATTERN) n = true) names).

(** ** Dates *)

Definition digit (n : nat) : ascii := ascii_of_nat (48 + n mod 10).

Definition pad2 (n : nat) : string :=
  String (digit (n / 10)) (String (digit n) EmptyString).

Definition pad4 (n : nat) : string :=
  String (digit (n / 1000)) (String (digit (n / 100)) (pad2 n)).

Definition month_abbr (m : nat) : string :=
  nth (m - 1)
    ["Jan"; "Feb"; "Mar"; "Apr"; "May"; "Jun";
     "Jul"; "Aug"; "Sep"; "Oct"; "Nov"; "Dec"] "".

(** [strftime("%Y%m%d_%H")] and [strftime("%d %b %Y %H:%M UTC")] *)
Definition _format_datetime (t : timestamp) : string * string :=
  ((pad4 (year t) ++ pad2 (month t) ++ pad2 (day t) ++ "_" ++ pad2 (hour t))%string,
   (pad2 (day t) ++ " " ++ month_abbr (month t) ++ " " ++ pad4 (year t) ++ " " ++
    pad2 (hour t) ++ ":" ++ pad2 (minute t) ++ " UTC")%string).

(** The fields are in the ranges of the calendar, the year has four digits. *)
Definition well_formed (t : timestamp) : Prop :=
  (1000 ≤ year t < 100 * 100 ∧ 1 ≤ month t ≤ 12 ∧ 1 ≤ day t ≤ 31 ∧
   hour t < 24 ∧ minute t < 60)%nat.

(** ** Figures *)

Definition stem (p : product) : string :=
  match p with
  | Temp2m => "Temp2m"
  | Wind10m => "Wind10m"
  | PressureThickness => "pressure_thickness"
  | TotPrec => "TotPrec"
  end.

(** The f-strings handed to [_save]. *)
Definition figure_name (p : product) (data_str : string) : string :=
  (stem p ++ "_" ++ data_str ++ ".png")%string.

Definition _save (lib : library) (filename : string) : script () :=
  bind (step (savefig lib filename)) (λ _,
  bind (say (Saved filename)) (λ _,
  say (Arrow filename))).

(** One figure: the drawing calls, then [_save]. *)
Definition figure (lib : library) (grib : string) (p : product)
    (data_str : string) : script () :=
  bind (step (draw lib grib p)) (λ _, _save lib (figure_name p data_str)).

(** The inner [try] around the precipitation field: three kinds of
    exception mean "no such field", any other goes on to the outer handler. *)
Definition open_tp (lib : library) (grib : string) : script bool :=
  match bind (step (open_var lib grib "tp" None)) (λ _, step (fields lib grib TotPrec)) with
  | (out, inr _) => (out, inr true)
  | (out, inl FileNotFoundError) | (out, inl ValueError) | (out, inl RuntimeError) =>
      ((out ++ [TpNotFound])%list, inr false)
  | (out, inl e) => (out, inl e)
  end.

(** The body of the outer [try] for one file. *)
Definition products (lib : library) (grib : string) : script () :=
  bind (step (open_var lib grib "2t" None)) (λ _,
  bind (step (fields lib grib Temp2m)) (λ _,
  bind (match valid_time lib grib with
        | inl e => fail e
        | inr t => ret t
        end) (λ t,
  let '(data_str, human_date) := _format_datetime t in
  bind (figure lib grib Temp2m data_str) (λ _,
  bind (step (open_var lib grib "10u" None)) (λ _,
  bind (step (open_var lib grib "10v" None)) (λ _,
  bind (figure lib grib Wind10m data_str) (λ _,
  bind (step (open_var lib grib "prmsl" None)) (λ _,
  bind (step (fields lib grib PressureThickness)) (λ _,
  bind (step (open_var lib grib "gh" (Some 1000%nat))) (λ _,
  bind (step (open_var lib grib "gh" (Some 500%nat))) (λ _,
  bind (figure lib grib PressureThickness data_str) (λ _,
  bind (open_tp lib grib) (λ tp,
  if tp then figure lib grib TotPrec data_str else ret ()))))))))))))).

(** [try: ... except Exception as err: print(...)] *)
Definition guarded (base : string) (body : script ()) : script () :=
  match body with
  | (out, inl e) => ((out ++ [ErrorProcessing base e])%list, inr ())
  | (out, inr _) => (out, inr ())
  end.

(** One turn of the loop from the moment its announcement is out. *)
Definition process (lib : library) (grib : string) : script () :=
  bind (say (Processing grib)) (λ _, guarded grib (products lib grib)).

(** One turn of the loop: the announcement stands before the [try], so an
    exception of [print] leaves the loop. *)
Definition turn (lib : library) (grib : string) : script () :=
  bind (step (announce lib grib)) (λ _, process lib grib).

Fixpoint for_each (lib : library) (files : list string) : script () :=
  match files with
  | [] => ret ()
  | grib :: rest => bind (turn lib grib) (λ _, for_each lib rest)
  end.

(** The script, for the names of the entries of [INPUT_DIR]. *)
Definition main (lib : library) (names : list string) : script () :=
  bind (step (make_output_dir lib)) (λ _,
  bind (say MakeOutputDir) (λ _,
  match grib_files names with
  | [] => fail FileNotFoundError
  | files => for_each lib files
  end)).

(** A name of ASCII bytes only: one byte is one character. *)
Fixpoint ascii_only (s : string) : bool :=
  match s with
  | EmptyString => true
  | String c r => (N_of_ascii c <? 128)%N && ascii_only r
  end.

(** The figures a run wrote, in order. *)
Definition saved (out : list output) : list string :=
  omap (λ o, match o with Saved f => Some f | _ => None end) out.

(** The files a run announced, in order. *)
Definition processed (out : list output) : list string :=
  omap (λ o, match o with Processing g => Some g | _ => None end) out.

(** The figures of one file in the order the script draws them. *)
Definition planned (data_str : string) : list string :=
  [figure_name Temp2m data_str; figure_name Wind10m data_str;
   figure_name PressureThickness data_str; figure_name TotPrec data_str].

(** What the body of the loop may put out for one file: no announcement of
    a file, and figures under figure names only. *)
Definition body_output (o : output) : Prop :=
  match o with
  | Processing _ | MakeOutputDir => False
  | Saved f =>
      ∃ p t, f = figure_name p (_format_datetime t).1
  | _ => True
  end.

(** A library that answers every call and dates every file alike. *)
Definition obliging (t : timestamp) : library :=
  {| make_output_dir := None;
     announce := λ _, None;
     open_var := λ _ _ _, None;
     fields := λ _ _, None;
     valid_time := λ _, inr t;
     draw := λ _ _, None;
     savefig := λ _, None |}.

(** The same library, with no precipitation field in any file. *)
Definition without_tp (t : timestamp) : library :=
  {| make_output_dir := None;
     announce := λ _, None;
     open_var := λ _ short_name _,
       if String.eqb short_name "tp" then Some ValueError else None;
     fields := λ _ _, None;
     valid_time := λ _, inr t;
     draw := λ _ _, None;
     savefig := λ _, None |}.

Definition noon : timestamp :=
  {| year := 2024; month := 3; day := 9; hour := 12; minute := 0 |}.

End forecast.

(** * Properties *)

(** ** Strings *)

Module StrFacts.

Lemma append_String (c : ascii) (a b : string) : String c a ++ b = String c (a ++ b).
Proof. reflexivity. Qed.

Lemma append_empty (b : string) : EmptyString ++ b = b.
Proof. reflexivity. Qed.

Ltac push_append := rewrite ?append_String, ?append_empty in *.

Lemma prefix_iff (s1 s2 : string) :
  String.prefix s1 s2 = true ↔ ∃ b, s2 = s1 ++ b.
Proof.
  revert s1; induction s2 as [|c s2 IH]; intros [|a s1]; simpl.
  - split; [by exists EmptyString | done].
  - split; [done | intros [b ?]; by push_append].
  - split; [by exists (String c s2) | done].
  - destruct (ascii_dec a c) as [->|Hne].
    + rewrite IH. split; intros [b Hb]; exists b; push_append; congruence.
    + split; [done | intros [b Hb]; push_append; congruence].
Qed.

(** [sub in s] holds exactly when [s] is some text, then [sub], then some
    text. *)
Lemma contains_iff (sub s : string) :
  Str.contains sub s = true ↔ ∃ a b, s = a ++ sub ++ b.
Proof.
  induction s as [|c s IH].
  - change (Str.contains sub "") with (String.prefix sub "" || false).
    rewrite orb_false_r, prefix_iff. split.
    + intros [b Hb]. by exists EmptyString, b.
    + intros [[|? a] [b Hb]]; push_append; [by exists b | done].
  - change (Str.contains sub (String c s))
      with (String.prefix sub (String c s) || Str.contains sub s).
    rewrite orb_true_iff, prefix_iff, IH. split.
    + intros [[b Hb] | (a & b & Hab)].
      * by exists EmptyString, b.
      * exists (String c a), b. push_append. by rewrite Hab.
    + intros ([|c' a] & b & Hab); push_append.
      * left. by exists b.
      * right. exists a, b. congruence.
Qed.

Lemma endswith_iff (s suffix : string) :
  Str.endswith s suffix = true ↔ ∃ a, s = a ++ suffix.
Proof.
  induction s as [|c s IH].
  - change (Str.endswith "" suffix) with (String.eqb "" suffix || false).
    rewrite orb_false_r, String.eqb_eq. split.
    + intros <-. by exists EmptyString.
    + intros [[|? a] Ha]; push_append; [done | discriminate].
  - change (Str.endswith (String c s) suffix)
      with (String.eqb (String c s) suffix || Str.endswith s suffix).
    rewrite orb_true_iff, String.eqb_eq, IH. split.
    + intros [<- | [a Ha]]; [by exists EmptyString |].
      exists (String c a). push_append. by rewrite Ha.
    + intros [[|c' a] Ha]; push_append; [by left | right].
      exists a. congruence.
Qed.

Lemma lower_app (a b : string) : Str.lower (a ++ b) = Str.lower a ++ Str.lower b.
Proof.
  induction a as [|c a IH]; push_append; [done |].
  cbn [Str.lower]. push_append. by rewrite IH.
Qed.

Lemma lower_app_inv (s x y : string) :
  Str.lower s = x ++ y → ∃ s1 s2, s = s1 ++ s2 ∧ Str.lower s1 = x ∧ Str.lower s2 = y.
Proof.
  revert s. induction x as [|c x IH]; intros s; push_append.
  - intros H. by exists EmptyString, s.
  - destruct s as [|a s]; [discriminate |]. cbn [Str.lower]. intros [= Ha Hs].
    destruct (IH s Hs) as (s1 & s2 & -> & H1 & H2).
    exists (String a s1), s2. push_append. cbn [Str.lower]. by rewrite Ha, H1.
Qed.

(** Lower-casing a byte gives the small letter or digit [l] exactly for
    [l] itself and for its capital. *)
Lemma lower_ascii_letter (l c : ascii) :
  (N_of_ascii l < 65 ∨ 90 < N_of_ascii l)%N →
  Str.lower_ascii c = l ↔ letter_of l c.
Proof.
  intros Hl. unfold Str.lower_ascii, letter_of.
  pose proof (N_ascii_bounded c) as Hc.
  destruct ((65 <=? N_of_ascii c) && (N_of_ascii c <=? 90))%N eqn:E.
  - apply andb_true_iff in E as [Hlo%N.leb_le Hhi%N.leb_le]. split.
    + intros <-. right. rewrite N_ascii_embedding by lia. lia.
    + intros [-> | (_ & _ & Heq)]; [lia |].
      by rewrite <- Heq, ascii_N_embedding.
  - apply andb_false_iff in E. split.
    + intros ->. by left.
    + intros [-> | (Hlo & Hhi & Heq)]; [done |].
      destruct E as [E%N.leb_gt | E%N.leb_gt]; lia.
Qed.

Lemma lower_spells (marker s : string) :
  Forall (λ l, (N_of_ascii l < 65 ∨ 90 < N_of_ascii l)%N) (list_ascii_of_string marker) →
  Str.lower s = marker ↔ spells marker s.
Proof.
  revert s. induction marker as [|l marker IH]; intros s Hsmall.
  - destruct s; cbn; split; (done || discriminate).
  - cbn [list_ascii_of_string] in Hsmall. apply Forall_cons in Hsmall as [Hl Hrest].
    destruct s as [|c s]; cbn [Str.lower spells]; [split; (done || discriminate) |].
    rewrite <- (IH s Hrest), <- (lower_ascii_letter l c Hl). split.
    + by intros [= -> ->].
    + by intros [-> ->].
Qed.

End StrFacts.

(** ** Directory trees *)

Lemma elem_of_walk (p n : node) :
  p ∈ walk n ↔ p = n ∨ ∃ name mtime children, n = Dir name mtime children ∧ inside p children.
Proof.
  revert p. induction n as [name mtime data | name mtime children IH] using node_tree_ind;
    intros p; simpl.
  - rewrite list_elem_of_singleton. split; [by left | intros [?|(?&?&?&?&?)]; done].
  - rewrite elem_of_cons. apply or_iff_compat_l. split.
    + intros Hp. exists name, mtime, children. split; [done |].
      apply list_elem_of_In, in_flat_map in Hp as (x & Hx & Hp).
      apply list_elem_of_In in Hx, Hp.
      rewrite Forall_forall in IH. apply (IH x Hx) in Hp as [-> | (nm & mt & ch & -> & Hin)].
      * by apply inside_here.
      * by eapply inside_below.
    + intros (nm & mt & ch & [= <- <- <-] & Hin).
      induction Hin as [l Hl | nm mt ch l Hd Hin IHin].
      * apply list_elem_of_In, in_flat_map. exists p. split; [by apply list_elem_of_In |].
        apply list_elem_of_In. rewrite Forall_forall in IH. apply (IH p Hl). by left.
      * apply list_elem_of_In, in_flat_map. exists (Dir nm mt ch).
        split; [by apply list_elem_of_In |].
        apply list_elem_of_In. rewrite Forall_forall in IH. apply (IH _ Hd).
        right. by exists nm, mt, ch.
Qed.

Lemma elem_of_rglob (fs : filesystem) (d : string) (p : node) :
  p ∈ rglob fs d ↔ ∃ children, fs !! d = Some children ∧ inside p children.
Proof.
  unfold rglob. destruct (fs !! d) as [children|]; last first.
  { rewrite elem_of_nil. split; [done | by intros (? & ? & _)]. }
  rewrite list_elem_of_In, in_flat_map. split.
  - intros (x & Hx & Hp). exists children. split; [done |].
    apply list_elem_of_In in Hx, Hp.
    apply elem_of_walk in Hp as [-> | (nm & mt & ch & -> & Hin)].
    + by apply inside_here.
    + by eapply inside_below.
  - intros (? & [= <-] & Hin). destruct Hin as [l Hl | nm mt ch l Hd Hin].
    + exists p. split; [by apply list_elem_of_In |].
      apply list_elem_of_In, elem_of_walk. by left.
    + exists (Dir nm mt ch). split; [by apply list_elem_of_In |].
      apply list_elem_of_In, elem_of_walk. right. by exists nm, mt, ch.
Qed.

Lemma inside_nil (p : node) : ¬ inside p [].
Proof. inversion 1 as [l Hl | nm mt ch l Hd _]; by eapply elem_of_nil. Qed.

Lemma inside_Permutation (p : node) (l l' : list node) :
  l ≡ₚ l' → inside p l → inside p l'.
Proof.
  intros Hperm Hin. revert l' Hperm.
  destruct Hin as [k Hk | nm mt ch k Hd Hin]; intros l' Hperm.
  - apply inside_here. by rewrite <- Hperm.
  - eapply inside_below; [| done]. by rewrite <- Hperm.
Qed.

Lemma inside_cons (p q : node) (l : list node) :
  inside p (q :: l) ↔ p ∈ walk q ∨ inside p l.
Proof.
  rewrite elem_of_walk. split.
  - inversion 1 as [k Hk | nm mt ch k Hd Hin]; subst.
    + apply elem_of_cons in Hk as [-> | Hk]; [left; by left | right; by apply inside_here].
    + apply elem_of_cons in Hd as [<- | Hd].
      * left. right. by exists nm, mt, ch.
      * right. by eapply inside_below.
  - intros [[-> | (nm & mt & ch & -> & Hin)] | Hin].
    + apply inside_here. by left.
    + eapply inside_below; [by left | done].
    + destruct Hin as [k Hk | nm mt ch k Hd Hin].
      * apply inside_here. by right.
      * eapply inside_below; [by right | done].
Qed.

(** ** The freshness gate *)

Lemma max_of_elem (t : Z) (ts : list Z) : max_of t ts ∈ t :: ts.
Proof.
  induction ts as [|x ts IH]; simpl; [by left |].
  destruct (Z.max_spec x (max_of t ts)) as [[_ ->] | [_ ->]].
  - apply elem_of_cons in IH as [-> | ?]; [by left | by do 2 right].
  - right. by left.
Qed.

Lemma max_of_upper (t : Z) (ts : list Z) (x : Z) : x ∈ t :: ts → x ≤ max_of t ts.
Proof.
  induction ts as [|y ts IH]; simpl.
  - intros ->%list_elem_of_singleton. lia.
  - rewrite !elem_of_cons. intros [-> | [-> | Hx]].
    + assert (t ≤ max_of t ts) by (apply IH; by left). lia.
    + lia.
    + assert (x ≤ max_of t ts) by (apply IH; by right). lia.
Qed.

Lemma grib_mtimes (fs : filesystem) (d : string) (x : Z) :
  x ∈ node_mtime <$> filter (λ p, is_grib_name (node_name p) = true) (rglob fs d) ↔
  ∃ p, grib_under fs d p ∧ node_mtime p = x.
Proof.
  rewrite list_elem_of_fmap. unfold grib_under. split.
  - intros (p & -> & Hp). apply list_elem_of_filter in Hp as [Hg Hp].
    apply elem_of_rglob in Hp as (ch & ? & ?). exists p. split; [by exists ch | done].
  - intros (p & (ch & ? & ? & ?) & <-). exists p. split; [done |].
    apply list_elem_of_filter. split; [done |]. apply elem_of_rglob. by exists ch.
Qed.

Lemma _latest_mtime_None (fs : filesystem) (d : string) :
  _latest_mtime fs d = None ↔ ∀ p, ¬ grib_under fs d p.
Proof.
  unfold _latest_mtime. pose proof (grib_mtimes fs d) as H.
  destruct (node_mtime <$> _) as [|t ts].
  - split; [| done]. intros _ p Hp.
    eapply elem_of_nil, H. by exists p.
  - split; [done |]. intros Hno. exfalso.
    destruct (proj1 (H t)) as (p & Hp & _); [by left |]. by eapply Hno.
Qed.

Lemma _latest_mtime_Some (fs : filesystem) (d : string) (t : Z) :
  _latest_mtime fs d = Some t ↔ newest_grib fs d t.
Proof.
  unfold _latest_mtime, newest_grib. pose proof (grib_mtimes fs d) as H.
  destruct (node_mtime <$> _) as [|t0 ts].
  - split; [done |]. intros [(p & Hp & Ht) _]. exfalso.
    eapply elem_of_nil, H. by exists p.
  - split.
    + intros [= <-]. split.
      * apply H, max_of_elem.
      * intros p Hp. apply max_of_upper, H. by exists p.
    + intros [Hex Hup]. f_equal. apply Z.le_antisymm.
      * destruct (proj1 (H _) (max_of_elem t0 ts)) as (p & Hp & <-). by apply Hup.
      * apply max_of_upper, H, Hex.
Qed.

Lemma gate_without_grib (now : Z) (fs : filesystem) (d : string) :
  (∀ p, ¬ grib_under fs d p) →
  ∀ threshold, _should_skip_download now fs d threshold = false.
Proof.
  intros Hno threshold. unfold _should_skip_download.
  by apply _latest_mtime_None in Hno as ->.
Qed.

(** The gate in the words of its embedding: it answers "skip" exactly when
    the filter of [_latest_mtime] lets some entry pass and the newest of
    them is young enough or from today. *)
Lemma gate_iff_newest_grib
    (now : Z) (fs : filesystem) (data_dir : string) (max_age_hours : Z) :
  _should_skip_download now fs data_dir max_age_hours = true ↔
    ∃ t, newest_grib fs data_dir t ∧
         (now - t < max_age_hours * 3600 * US_PER_SECOND ∨ utc_date t = utc_date now).
Proof.
  unfold _should_skip_download.
  destruct (_latest_mtime fs data_dir) as [latest|] eqn:E.
  - apply _latest_mtime_Some in E. simpl.
    rewrite orb_true_iff, !bool_decide_eq_true. split.
    + intros Hc. by exists latest.
    + intros (t & Ht & Hc).
      assert (t = latest) as ->; [| done].
      apply _latest_mtime_Some in E, Ht. congruence.
  - split; [done |]. intros (t & [(p & Hp & _) _] & _).
    by eapply _latest_mtime_None in E.
Qed.

(** The filter of the gate lets pass exactly the names that hold [grb2] or
    [grib2] in some mix of cases. *)
Lemma is_grib_name_marked (name : string) : is_grib_name name = true ↔ marked name.
Proof.
  assert (∀ marker,
            Forall (λ l, (N_of_ascii l < 65 ∨ 90 < N_of_ascii l)%N)
              (list_ascii_of_string marker) →
            Str.contains marker (Str.lower name) = true ↔
            ∃ before m after, name = (before ++ m ++ after)%string ∧ spells marker m)
    as Hmarker.
  { intros marker Hsmall. rewrite StrFacts.contains_iff. split.
    - intros (a & b & Hab).
      apply StrFacts.lower_app_inv in Hab as (before & rest & -> & _ & Hrest).
      apply StrFacts.lower_app_inv in Hrest as (m & after & -> & Hm & _).
      exists before, m, after. split; [done |]. by apply StrFacts.lower_spells.
    - intros (before & m & after & -> & Hm).
      exists (Str.lower before), (Str.lower after).
      rewrite !StrFacts.lower_app. do 2 f_equal. by apply StrFacts.lower_spells. }
  unfold is_grib_name, marked. rewrite orb_true_iff, !Hmarker.
  - split.
    + intros [(a & m & b & H & Hm) | (a & m & b & H & Hm)]; exists a, m, b; auto.
    + intros (a & m & b & H & [Hm | Hm]); [left | right]; by exists a, m, b.
  - repeat constructor; cbn; lia.
  - repeat constructor; cbn; lia.
Qed.

Lemma grib_under_marked (fs : filesystem) (d : string) (p : node) :
  grib_under fs d p ↔ marked_under fs d p.
Proof.
  unfold grib_under, marked_under.
  split; intros (children & Hd & Hin & Hname); exists children;
    (split; [done |]); (split; [done |]); by apply is_grib_name_marked.
Qed.

Lemma newest_grib_marked (fs : filesystem) (d : string) (t : Z) :
  newest_grib fs d t ↔ newest_marked fs d t.
Proof.
  unfold newest_grib, newest_marked. split; intros [(p & Hp & Ht) Hup]; split.
  - exists p. by rewrite <- grib_under_marked.
  - intros q Hq. apply Hup. by rewrite grib_under_marked.
  - exists p. by rewrite grib_under_marked.
  - intros q Hq. apply Hup. by rewrite <- grib_under_marked.
Qed.

(** Two stamps have the same [utc_date] exactly when one UTC day holds
    both. *)
Lemma utc_date_same_day (t now : Z) : utc_date t = utc_date now ↔ same_utc_day t now.
Proof.
  unfold utc_date, same_utc_day, US_PER_DAY, US_PER_SECOND.
  change (86400 * 1000000) with 86400000000. split.
  - intros Hday. exists (t `div` 86400000000).
    pose proof (Z.div_mod t 86400000000) as Ht.
    pose proof (Z.div_mod now 86400000000) as Hn.
    pose proof (Z.mod_pos_bound t 86400000000) as Hbt.
    pose proof (Z.mod_pos_bound now 86400000000) as Hbn.
    rewrite <- Hday in Hn. lia.
  - intros (day & Ht & Hn).
    rewrite <- (Z.div_unique t 86400000000 day (t - day * 86400000000)) by lia.
    rewrite <- (Z.div_unique now 86400000000 day (now - day * 86400000000)) by lia.
    done.
Qed.

(** The range of [datetime] is the years 1 to 9999. *)
Lemma datetime_range_years :
  year_of_day (DATETIME_MIN `div` US_PER_DAY) = 1 ∧
  year_of_day ((DATETIME_MIN - 1) `div` US_PER_DAY) = 0 ∧
  year_of_day (DATETIME_MAX `div` US_PER_DAY) = 9999 ∧
  year_of_day ((DATETIME_MAX + 1) `div` US_PER_DAY) = 10000.
Proof. by vm_compute. Qed.

(** The literal reading of C1 fails on a directory: [rglob] yields
    directories as well, so a data directory that holds nothing but an empty
    directory named [grib2], made an hour ago, makes the gate answer "skip"
    although no file with a marked name is there. *)
Lemma lone_marked_directory_skips :
  let now := sample.june_2024 + 3600 * US_PER_SECOND in
  sample.lone_directory !! "DATA" = Some [Dir "grib2" sample.june_2024 []] ∧
  exact_threshold 6 ∧ representable now ∧ representable sample.june_2024 ∧
  _should_skip_download now sample.lone_directory "DATA" 6 = true ∧
  ∀ p, ¬ marked_file_under sample.lone_directory "DATA" p.
Proof.
  cbv zeta. split; [reflexivity |].
  split; [by vm_compute |]. split; [by vm_compute |]. split; [by vm_compute |].
  split; [reflexivity |].
  intros p [(children & Hd & Hin & _) Hfile].
  assert (children = [Dir "grib2" sample.june_2024 []]) as -> by (by injection Hd).
  apply inside_cons in Hin as [Hin | Hin].
  - cbn in Hin. apply list_elem_of_singleton in Hin as ->. discriminate.
  - by apply inside_nil in Hin.
Qed.

(** C1, as the code has it.  For a positive threshold, stamps and a clock in
    the ordinary ranges, the gate answers "skip" exactly when some entry
    under the directory, regular file or sub-directory, at any depth, has a
    name that holds [grb2] or [grib2] in some mix of cases, and the newest
    modification time [t] among such entries is less than [max_age_hours]
    hours before now or lies in the same UTC calendar day as now; with no
    such entry the gate answers "refresh needed" for every threshold.  The
    ordinary ranges are the stamps of the years 1 to 9999, which [datetime]
    holds, and the thresholds up to 2^34 seconds, below which the float
    comparison of the elapsed seconds is exact. *)
Theorem gate_skips_iff_marked_entry_is_fresh
    (now : Z) (fs : filesystem) (data_dir : string) (max_age_hours : Z) :
  exact_threshold max_age_hours →
  representable now →
  (∀ t, newest_marked fs data_dir t → representable t) →
  (_should_skip_download now fs data_dir max_age_hours = true ↔
     (∃ p, marked_under fs data_dir p) ∧
     ∃ t, newest_marked fs data_dir t ∧
          (now - t < max_age_hours * 3600 * 1000000 ∨ same_utc_day t now)) ∧
  ((∀ p, ¬ marked_under fs data_dir p) →
     ∀ threshold, _should_skip_download now fs data_dir threshold = false).
Proof.
  intros _ _ _. split.
  - rewrite gate_iff_newest_grib. split.
    + intros (t & Ht & Hc). apply newest_grib_marked in Ht. split.
      * destruct Ht as [(p & Hp & _) _]. by exists p.
      * exists t. split; [done |]. by rewrite <- utc_date_same_day.
    + intros (_ & t & Ht & Hc). exists t. split; [by apply newest_grib_marked |].
      by rewrite utc_date_same_day.
  - intros Hno. apply gate_without_grib. intros p Hp%grib_under_marked. by eapply Hno.
Qed.

(** ** Closed forms of the stages *)

Ltac run_io :=
  unfold mbind, io_bind, mret, io_ret, print, emit, get_fs, put_fs, raise; simpl.

Lemma mkdir_run (path : string) (w : world) :
  mkdir path w =
  (Ok (), {| w_fs := made (w_fs w) path; w_trace := w_trace w ++ [Mkdir path] |}).
Proof.
  unfold mkdir, made. run_io. by destruct (w_fs w !! path).
Qed.

Lemma subprocess_run_run (h : host) (argv : list string) (env : environment) (w : world) :
  subprocess_run h argv env w =
  (outcome (child h argv env (w_fs w)).1,
   {| w_fs := (child h argv env (w_fs w)).2;
      w_trace := w_trace w ++ [Subprocess argv env] |}).
Proof.
  unfold subprocess_run. run_io.
  destruct (child h argv env (w_fs w)) as [[[|rc|rc]|] fs']; reflexivity.
Qed.

Lemma run_gfs_download_run (h : host) (data_dir python_executable gfs_script : string)
    (extra_env : option environment) (max_age_hours : Z) (force_download : bool)
    (w : world) :
  run_gfs_download h data_dir python_executable gfs_script extra_env
    max_age_hours force_download w =
  let fs1 := made (w_fs w) data_dir in
  if negb force_download && _should_skip_download (utc_now h) fs1 data_dir max_age_hours
  then (Ok (), {| w_fs := fs1; w_trace := w_trace w ++ [Mkdir data_dir; Print UpToDate] |})
  else
    let argv := [python_executable; gfs_script] in
    let env := download_env h data_dir extra_env in
    let c := child h argv env fs1 in
    (outcome c.1,
     {| w_fs := c.2;
        w_trace := w_trace w ++
          Mkdir data_dir :: Subprocess argv env :: after_child c.1 GfsFinished |}).
Proof.
  unfold run_gfs_download.
  change (mkdir data_dir ≫= ?k) with (λ w, io_bind _ _ k (mkdir data_dir) w).
  cbv beta. unfold io_bind at 1. rewrite mkdir_run. run_io.
  destruct (negb force_download && _) eqn:E.
  - simpl. by rewrite <- app_assoc.
  - fold (download_env h data_dir extra_env).
    rewrite subprocess_run_run. simpl. unfold after_child.
    destruct (outcome _) as [[]|]; simpl; rewrite <- ?app_assoc; reflexivity.
Qed.

Lemma run_forecast_plot_run (h : host)
    (input_dir output_dir python_executable forecast_script : string)
    (extra_env : option environment) (w : world) :
  run_forecast_plot h input_dir output_dir python_executable forecast_script extra_env w =
  let fs1 := made (w_fs w) output_dir in
  let argv := [python_executable; forecast_script] in
  let env := render_env h input_dir output_dir extra_env in
  let c := child h argv env fs1 in
  (outcome c.1,
   {| w_fs := c.2;
      w_trace := w_trace w ++
        Print CreatingFigures :: Mkdir output_dir :: Subprocess argv env ::
        after_child c.1 FiguresProduced |}).
Proof.
  unfold run_forecast_plot. run_io. rewrite mkdir_run. simpl.
  fold (render_env h input_dir output_dir extra_env).
  rewrite subprocess_run_run. simpl. unfold after_child.
  destruct (outcome _) as [[]|]; simpl; rewrite <- ?app_assoc; reflexivity.
Qed.

Lemma smtp_session_run (h : host) (smtp_server : string) (port : Z)
    (sender pw : string) (msg : email) (w : world) :
  smtp_session h smtp_server port sender pw msg w =
  ((smtp_dialogue h smtp_server port sender pw msg).1,
   {| w_fs := w_fs w;
      w_trace := w_trace w ++ (smtp_dialogue h smtp_server port sender pw msg).2 |}).
Proof.
  unfold smtp_session, smtp_dialogue, ensuring. run_io.
  destruct (smtp_accepts h smtp_server port); [| done].
  destruct (smtp_authenticates h sender pw); simpl.
  - destruct (smtp_delivers h msg); simpl; rewrite <- ?app_assoc; reflexivity.
  - rewrite <- ?app_assoc; reflexivity.
Qed.

(** The archive of paths that [zf.write] takes holds their entries in the
    order of the paths; a path it refuses ends the loop with its exception. *)
Lemma _zip_images_Ok (h : host) (paths : list node) (entries : list zip_entry) :
  _zip_images h paths = Ok entries ↔
  Forall (λ p, zip_refuses h p = None) paths ∧ entries = zip_write <$> paths.
Proof.
  revert entries. induction paths as [|p paths IH]; intros entries; cbn.
  - split; [by intros [= <-] | by intros [_ ->]].
  - destruct (zip_refuses h p) as [e|] eqn:Hp.
    + split; [done |]. intros [Hall _]. apply Forall_cons in Hall as [Hp' _]. congruence.
    + destruct (_zip_images h paths) as [l|e].
      * destruct (IH l) as [IH1 _]. destruct (IH1 eq_refl) as [Hall ->]. split.
        -- intros [= <-]. split; [by constructor | done].
        -- by intros [_ ->].
      * split; [done |]. intros [Hall _]. apply Forall_cons in Hall as [_ Hall].
        destruct (IH (zip_write <$> paths)) as [_ IH2].
        by specialize (IH2 (conj Hall eq_refl)).
Qed.

Lemma send_images_via_email_run (h : host)
    (image_dir : string) (sender : option string) (recipients : option (list string))
    (subject body smtp_server : string) (port : Z)
    (password : option string) (zip_name : string) (w : world) :
  send_images_via_email h image_dir sender recipients subject body smtp_server port
    password zip_name w =
  if negb (truthy sender) || negb (truthy_list recipients) then
    (Raise (ValueError "`sender` and `recipients` are required for e‑mail sending."), w)
  else
    match credential h password with
    | None =>
        (Raise (ValueError "Set `EMAIL_PASSWORD` in the environment or pass `--password`."), w)
    | Some pw =>
        let png_paths := sorted (glob_png (w_fs w) image_dir) in
        if bool_decide (png_paths = []) then
          (Raise (FileNotFoundError ("No PNG files found in " ++ image_dir ++ ".")), w)
        else
          let msg := message_for sender recipients subject body zip_name png_paths in
          match _zip_images h png_paths with
          | Raise e =>
              (Raise e,
               {| w_fs := w_fs w;
                  w_trace := w_trace w ++
                    [Print (Sending (List.length png_paths) (msg_to msg))] |})
          | Ok _ =>
              let d := smtp_dialogue h smtp_server port (default "" sender) pw msg in
              (d.1,
               {| w_fs := w_fs w;
                  w_trace := w_trace w ++
                    Print (Sending (List.length png_paths) (msg_to msg)) :: d.2 ++
                    match d.1 with Ok _ => [Print EmailSent] | Raise _ => [] end |})
          end
    end.
Proof.
  unfold send_images_via_email.
  destruct (negb (truthy sender) || negb (truthy_list recipients)); [done |].
  destruct (credential h password) as [pw|]; [| done].
  run_io. destruct (bool_decide _); [done |]. unfold lift. cbn [fst snd].
  destruct (_zip_images h (sorted (glob_png (w_fs w) image_dir))) as [entries|e] eqn:Hzip;
    [| done].
  apply _zip_images_Ok in Hzip as [_ ->].
  rewrite smtp_session_run. fold (message_for sender recipients subject body zip_name
    (sorted (glob_png (w_fs w) image_dir))). simpl.
  destruct (smtp_dialogue _ _ _ _ _ _) as [[[]|e] evs]; simpl;
    rewrite <- ?app_assoc, ?app_nil_r; reflexivity.
Qed.

Lemma events_since_app (w : world) (fs : filesystem) (evs : list event) :
  events_since w {| w_fs := fs; w_trace := w_trace w ++ evs |} = evs.
Proof. unfold events_since. simpl. apply drop_app_length. Qed.

Lemma events_since_refl (w : world) : events_since w w = [].
Proof. unfold events_since. apply drop_all. Qed.

Lemma gate_skips_iff_marked_entry_is_fresh_witness :
  _should_skip_download 3000000 sample.fs "OLD" 6 = true ∧
  _should_skip_download 3000000 sample.fs "DATA" 6 = false.
Proof.
  assert (exact_threshold 6) as H6 by (by vm_compute).
  assert (representable 3000000) as Hnow by (by vm_compute).
  assert (_latest_mtime sample.fs "OLD" = Some 7000000) as Hold by reflexivity.
  assert (_latest_mtime sample.fs "DATA" = None) as Hdata by reflexivity.
  split.
  - apply (gate_skips_iff_marked_entry_is_fresh 3000000 sample.fs "OLD" 6 H6 Hnow).
    + intros t Ht%newest_grib_marked. apply _latest_mtime_Some in Ht.
      rewrite Hold in Ht. injection Ht as <-. by vm_compute.
    + apply _latest_mtime_Some, newest_grib_marked in Hold. split.
      * destruct Hold as [(p & Hp & _) _]. by exists p.
      * exists 7000000. split; [done |]. left. lia.
  - apply (gate_skips_iff_marked_entry_is_fresh 3000000 sample.fs "DATA" 6 H6 Hnow).
    + intros t Ht%newest_grib_marked. apply _latest_mtime_Some in Ht.
      rewrite Hdata in Ht. discriminate.
    + intros p Hp%grib_under_marked. by eapply _latest_mtime_None in Hdata.
Defined.

(** ** The download wrapper *)

Lemma update_env_lookup (env extra : environment) (k : string) :
  update_env env (Some extra) !! k =
  match extra !! k with Some v => Some v | None => env !! k end.
Proof.
  unfold update_env. destruct (decide (extra = ∅)) as [-> | _].
  - by rewrite lookup_empty.
  - rewrite lookup_union. destruct (extra !! k), (env !! k); reflexivity.
Qed.

Lemma run_gfs_download_events (h : host) (data_dir python_executable gfs_script : string)
    (extra_env : option environment) (max_age_hours : Z) (force_download : bool)
    (w : world) :
  events_since w
    (run_gfs_download h data_dir python_executable gfs_script extra_env
       max_age_hours force_download w).2 =
  if negb force_download &&
     _should_skip_download (utc_now h) (made (w_fs w) data_dir) data_dir max_age_hours
  then [Mkdir data_dir; Print UpToDate]
  else
    let argv := [python_executable; gfs_script] in
    let env := download_env h data_dir extra_env in
    Mkdir data_dir :: Subprocess argv env ::
      after_child (child h argv env (made (w_fs w) data_dir)).1 GfsFinished.
Proof.
  rewrite run_gfs_download_run. simpl.
  destruct (negb force_download && _); simpl; apply events_since_app.
Qed.

Lemma run_forecast_plot_events (h : host)
    (input_dir output_dir python_executable forecast_script : string)
    (extra_env : option environment) (w : world) :
  events_since w
    (run_forecast_plot h input_dir output_dir python_executable forecast_script
       extra_env w).2 =
  let argv := [python_executable; forecast_script] in
  let env := render_env h input_dir output_dir extra_env in
  Print CreatingFigures :: Mkdir output_dir :: Subprocess argv env ::
    after_child (child h argv env (made (w_fs w) output_dir)).1 FiguresProduced.
Proof.
  rewrite run_forecast_plot_run. simpl. apply events_since_app.
Qed.

Lemma after_child_elem (c : completed) (l : line) (e : event) :
  e ∈ after_child c l → e = Print l.
Proof.
  unfold after_child. destruct (outcome c).
  - by intros ->%list_elem_of_singleton.
  - by intros ?%elem_of_nil.
Qed.

(** C2.  With the force flag set the download wrapper never takes the
    "up to date" exit: whatever the directory holds and whatever the
    threshold, it starts the download child, and it does not print the
    skipping line. *)
Theorem force_download_never_skips (h : host)
    (data_dir python_executable gfs_script : string)
    (extra_env : option environment) (max_age_hours : Z) (w : world) :
  let w' := (run_gfs_download h data_dir python_executable gfs_script extra_env
               max_age_hours true w).2 in
  Subprocess [python_executable; gfs_script] (download_env h data_dir extra_env)
    ∈ events_since w w' ∧
  Print UpToDate ∉ events_since w w'.
Proof.
  simpl. rewrite run_gfs_download_events. simpl. split.
  - right. by left.
  - rewrite !elem_of_cons. intros [? | [? | H%after_child_elem]]; discriminate.
Qed.

Lemma force_download_never_skips_witness :
  _should_skip_download (utc_now sample.h) sample.fs "OLD" 6 = true ∧
  Subprocess ["/usr/bin/python3"; "GFS.py"] (download_env sample.h "OLD" None)
    ∈ events_since sample.w
        (run_gfs_download sample.h "OLD" "/usr/bin/python3" "GFS.py" None 6 true sample.w).2.
Proof.
  split; [reflexivity |].
  apply (force_download_never_skips sample.h "OLD" "/usr/bin/python3" "GFS.py" None 6 sample.w).
Defined.

Lemma grib_under_made (fs : filesystem) (d : string) (p : node) :
  grib_under (made fs d) d p ↔ grib_under fs d p.
Proof.
  unfold made. destruct (fs !! d) eqn:E; [done |].
  unfold grib_under. rewrite lookup_insert_eq, E. split.
  - intros (ch & [= <-] & Hin & _). by apply inside_nil in Hin.
  - by intros (ch & ? & _).
Qed.

Lemma download_env_lookup (h : host) (data_dir : string) (extra : environment) (k : string) :
  download_env h data_dir (Some extra) !! k =
  match extra !! k with
  | Some v => Some v
  | None => if decide (k = "DATA_DIR") then Some (resolve h data_dir) else environ h !! k
  end.
Proof.
  unfold download_env. rewrite update_env_lookup. destruct (extra !! k); [done |].
  destruct (decide (k = "DATA_DIR")) as [-> | Hk].
  - by rewrite lookup_insert_eq.
  - by rewrite lookup_insert_ne.
Qed.

Lemma render_env_lookup (h : host) (input_dir output_dir : string)
    (extra : environment) (k : string) :
  render_env h input_dir output_dir (Some extra) !! k =
  match extra !! k with
  | Some v => Some v
  | None =>
      if decide (k = "OUTPUT_DIR") then Some (resolve h output_dir)
      else if decide (k = "INPUT_DIR") then Some (resolve h input_dir)
      else environ h !! k
  end.
Proof.
  unfold render_env. rewrite update_env_lookup. destruct (extra !! k); [done |].
  destruct (decide (k = "OUTPUT_DIR")) as [-> | Ho].
  - by rewrite lookup_insert_eq.
  - rewrite lookup_insert_ne by done.
    destruct (decide (k = "INPUT_DIR")) as [-> | Hi].
    + by rewrite lookup_insert_eq.
    + by rewrite lookup_insert_ne.
Qed.

(** C9, as the code has it.  When nothing under the data directory carries
    a GRIB marker, the threshold is 6 and the force flag is off, the gate
    answers "refresh needed" and the wrapper starts the download child with
    the merged environment; provided the caller's overrides do not define
    [DATA_DIR] themselves, that environment maps [DATA_DIR] to the resolved
    path of the data directory.  Every other key holds the caller's override
    when there is one and the value of the process environment otherwise. *)
Theorem empty_directory_is_downloaded (h : host)
    (data_dir python_executable gfs_script : string)
    (extra_env : option environment) (w : world) :
  (∀ p, ¬ grib_under (w_fs w) data_dir p) →
  (∀ extra, extra_env = Some extra → extra !! "DATA_DIR" = None) →
  let env := download_env h data_dir extra_env in
  _should_skip_download (utc_now h) (made (w_fs w) data_dir) data_dir 6 = false ∧
  Subprocess [python_executable; gfs_script] env
    ∈ events_since w
        (run_gfs_download h data_dir python_executable gfs_script extra_env 6 false w).2 ∧
  env !! "DATA_DIR" = Some (resolve h data_dir) ∧
  (∀ extra k v, extra_env = Some extra → extra !! k = Some v → env !! k = Some v) ∧
  (∀ k, k ≠ "DATA_DIR" →
        (∀ extra, extra_env = Some extra → extra !! k = None) →
        env !! k = environ h !! k).
Proof.
  intros Hnone Hextra env.
  assert (_should_skip_download (utc_now h) (made (w_fs w) data_dir) data_dir 6 = false)
    as Hgate.
  { apply gate_without_grib. intros p Hp. by apply grib_under_made, Hnone in Hp. }
  split; [done |]. split.
  { rewrite run_gfs_download_events, Hgate. simpl. right. by left. }
  subst env. destruct extra_env as [extra|].
  - split; [| split].
    + rewrite download_env_lookup, (Hextra extra) by done. by rewrite decide_True.
    + intros ? k v [= <-] Hk. by rewrite download_env_lookup, Hk.
    + intros k Hk Hno. rewrite download_env_lookup, (Hno extra) by done.
      by rewrite decide_False.
  - unfold download_env, update_env. split; [| split].
    + by rewrite lookup_insert_eq.
    + by intros.
    + intros k Hk _. by rewrite lookup_insert_ne.
Qed.

Lemma empty_directory_is_downloaded_witness :
  Subprocess ["/usr/bin/python3"; "GFS.py"]
    (download_env sample.h "DATA" (Some {[ "LEVEL" := "debug" ]}))
    ∈ events_since sample.w
        (run_gfs_download sample.h "DATA" "/usr/bin/python3" "GFS.py"
           (Some {[ "LEVEL" := "debug" ]}) 6 false sample.w).2 ∧
  download_env sample.h "DATA" (Some {[ "LEVEL" := "debug" ]}) !! "DATA_DIR"
    = Some "/srv/DATA".
Proof.
  assert (∀ p, ¬ grib_under (w_fs sample.w) "DATA" p) as Hnone
    by (by apply _latest_mtime_None).
  assert (∀ extra : environment,
            Some ({[ "LEVEL" := "debug" ]} : environment) = Some extra →
            extra !! "DATA_DIR" = None) as Hextra
    by (by intros ? [= <-]).
  destruct (empty_directory_is_downloaded sample.h "DATA" "/usr/bin/python3" "GFS.py"
              (Some {[ "LEVEL" := "debug" ]}) sample.w Hnone Hextra)
    as (_ & Hrun & Hdir & _).
  by split.
Defined.

(** The caller can take [DATA_DIR] away from the driver: with an override
    for it, the child of the scenario of C9 does not see the resolved data
    directory. *)
Lemma data_dir_can_be_overridden :
  (∀ p, ¬ grib_under (w_fs sample.w) "DATA" p) ∧
  events_since sample.w
    (run_gfs_download sample.h "DATA" "/usr/bin/python3" "GFS.py"
       (Some {[ "DATA_DIR" := "/elsewhere" ]}) 6 false sample.w).2
  = [Mkdir "DATA";
     Subprocess ["/usr/bin/python3"; "GFS.py"]
       (download_env sample.h "DATA" (Some {[ "DATA_DIR" := "/elsewhere" ]}));
     Print GfsFinished] ∧
  download_env sample.h "DATA" (Some {[ "DATA_DIR" := "/elsewhere" ]}) !! "DATA_DIR"
    = Some "/elsewhere" ∧
  Some "/elsewhere" ≠ Some (resolve sample.h "DATA").
Proof.
  split; [by apply _latest_mtime_None |].
  split; [by rewrite run_gfs_download_events |].
  split; [reflexivity | discriminate].
Qed.



(** ** The orchestrator *)

Lemma run_pipeline_run (h : host) (a : args.t) (w : world) :
  run_pipeline h a w =
  match parse_env (default [] (args.env a)) ∅ with
  | Raise e => (Raise e, w)
  | Ok extra_env =>
      match run_gfs_download h (args.data_dir a) (sys_executable h) (args.gfs_script a)
              (Some extra_env) (args.max_age_hours a) (args.force_download a) w with
      | (Raise e, w1) => (Raise e, w1)
      | (Ok _, w1) =>
          match run_forecast_plot h (args.data_dir a) (args.fig_dir a) (sys_executable h)
                  (args.forecast_script a) (Some extra_env) w1 with
          | (Raise e, w2) => (Raise e, w2)
          | (Ok _, w2) =>
              match (if args.send_email a then
                       send_images_via_email h (args.fig_dir a) (args.sender a)
                         (args.recipients a) (args.subject a) (args.body a)
                         (args.smtp_server a) (args.port a) (args.password a)
                         (args.zip_name a)
                     else mret ()) w2 with
              | (Raise e, w3) => (Raise e, w3)
              | (Ok _, w3) =>
                  (Ok (), {| w_fs := w_fs w3;
                             w_trace := w_trace w3 ++ [Print PipelineFinished] |})
              end
          end
      end
  end.
Proof.
  unfold run_pipeline, lift. unfold mbind at 1, io_bind at 1.
  destruct (parse_env _ _) as [extra_env|e]; [| done].
  unfold mbind at 1, io_bind at 1.
  destruct (run_gfs_download _ _ _ _ _ _ _ _) as [[[]|e] w1]; [| done].
  unfold mbind at 1, io_bind at 1.
  destruct (run_forecast_plot _ _ _ _ _ _ _) as [[[]|e] w2]; [| done].
  unfold mbind at 1, io_bind at 1.
  match goal with
  | |- context [(if args.send_email a then ?s else ?m) w2] =>
      destruct ((if args.send_email a then s else m) w2) as [[[]|e] w3]
  end; done.
Qed.

Lemma outcome_failed (c : completed) : c ≠ Exited 0 → outcome c = Raise (exn_of c).
Proof. destruct c as [[|rc|rc]|]; done. Qed.

Lemma after_child_failed (c : completed) (l : line) : c ≠ Exited 0 → after_child c l = [].
Proof. intros Hc. unfold after_child. by rewrite outcome_failed. Qed.

(** C3.  The pipeline stops at the first stage that fails.  When the
    download child exits with a non-zero status or cannot be launched, the
    pipeline raises that error and its last action is the launch of that
    child: nothing of the render stage and nothing of the e-mail stage
    happens.  When the download stage succeeded and the render child fails,
    the pipeline raises that error and its last action is the launch of the
    render child: nothing of the e-mail stage happens.  In general an
    exception of a stage is the exception of the pipeline and the world is
    left as that stage left it. *)
Theorem pipeline_stops_at_first_failure (h : host) (a : args.t) (w : world)
    (extra : environment) :
  parse_env (default [] (args.env a)) ∅ = Ok extra →
  let exe := sys_executable h in
  let download :=
    run_gfs_download h (args.data_dir a) exe (args.gfs_script a) (Some extra)
      (args.max_age_hours a) (args.force_download a) in
  let render :=
    run_forecast_plot h (args.data_dir a) (args.fig_dir a) exe (args.forecast_script a)
      (Some extra) in
  let denv := download_env h (args.data_dir a) (Some extra) in
  let renv := render_env h (args.data_dir a) (args.fig_dir a) (Some extra) in
  (∀ c fs',
     negb (args.force_download a) &&
       _should_skip_download (utc_now h) (made (w_fs w) (args.data_dir a))
         (args.data_dir a) (args.max_age_hours a) = false →
     child h [exe; args.gfs_script a] denv (made (w_fs w) (args.data_dir a)) = (c, fs') →
     c ≠ Exited 0 →
     run_pipeline h a w =
     (Raise (exn_of c),
      {| w_fs := fs';
         w_trace := w_trace w ++
           [Mkdir (args.data_dir a); Subprocess [exe; args.gfs_script a] denv] |})) ∧
  (∀ w1 c fs',
     download w = (Ok (), w1) →
     child h [exe; args.forecast_script a] renv (made (w_fs w1) (args.fig_dir a)) = (c, fs') →
     c ≠ Exited 0 →
     run_pipeline h a w =
     (Raise (exn_of c),
      {| w_fs := fs';
         w_trace := w_trace w1 ++
           [Print CreatingFigures; Mkdir (args.fig_dir a);
            Subprocess [exe; args.forecast_script a] renv] |})) ∧
  (∀ e w1, download w = (Raise e, w1) → run_pipeline h a w = (Raise e, w1)) ∧
  (∀ w1 e w2, download w = (Ok (), w1) → render w1 = (Raise e, w2) →
              run_pipeline h a w = (Raise e, w2)).
Proof.
  intros Hparse exe download render denv renv.
  subst exe download render denv renv.
  assert (∀ e w1,
            run_gfs_download h (args.data_dir a) (sys_executable h) (args.gfs_script a)
              (Some extra) (args.max_age_hours a) (args.force_download a) w = (Raise e, w1) →
            run_pipeline h a w = (Raise e, w1)) as Hd.
  { intros e w1 Hrun. by rewrite run_pipeline_run, Hparse, Hrun. }
  assert (∀ w1 e w2,
            run_gfs_download h (args.data_dir a) (sys_executable h) (args.gfs_script a)
              (Some extra) (args.max_age_hours a) (args.force_download a) w = (Ok (), w1) →
            run_forecast_plot h (args.data_dir a) (args.fig_dir a) (sys_executable h)
              (args.forecast_script a) (Some extra) w1 = (Raise e, w2) →
            run_pipeline h a w = (Raise e, w2)) as Hr.
  { intros w1 e w2 Hrun1 Hrun2. by rewrite run_pipeline_run, Hparse, Hrun1, Hrun2. }
  split; [| split; [| by split]].
  - intros c fs' Hgate Hchild Hc. apply Hd.
    rewrite run_gfs_download_run. cbv zeta. rewrite Hgate, Hchild. cbn [fst snd].
    by rewrite outcome_failed, after_child_failed.
  - intros w1 c fs' Hrun Hchild Hc. apply (Hr w1); [done |].
    rewrite run_forecast_plot_run. cbv zeta. rewrite Hchild. cbn [fst snd].
    by rewrite outcome_failed, after_child_failed.
Qed.

Lemma pipeline_stops_at_first_failure_witness :
  run_pipeline (sample.host_with (Exited 1) (Exited 0) ∅) sample.a sample.w =
  (Raise (CalledProcessError 1),
   {| w_fs := sample.fs;
      w_trace :=
        [Mkdir "DATA";
         Subprocess ["/usr/bin/python3"; "GFS.py"]
           (download_env (sample.host_with (Exited 1) (Exited 0) ∅) "DATA"
              (Some {[ "LEVEL" := "debug" ]}))] |}) ∧
  run_pipeline (sample.host_with (Exited 0) LaunchFailed ∅) sample.a sample.w =
  (Raise OSError,
   {| w_fs := sample.fs;
      w_trace :=
        [Mkdir "DATA";
         Subprocess ["/usr/bin/python3"; "GFS.py"]
           (download_env (sample.host_with (Exited 0) LaunchFailed ∅) "DATA"
              (Some {[ "LEVEL" := "debug" ]}));
         Print GfsFinished] ++
        [Print CreatingFigures; Mkdir "FIGS";
         Subprocess ["/usr/bin/python3"; "forecast.py"]
           (render_env (sample.host_with (Exited 0) LaunchFailed ∅) "DATA" "FIGS"
              (Some {[ "LEVEL" := "debug" ]}))] |}).
Proof.
  split.
  - destruct (pipeline_stops_at_first_failure
                (sample.host_with (Exited 1) (Exited 0) ∅) sample.a sample.w
                {[ "LEVEL" := "debug" ]} eq_refl) as [Hdownload _].
    apply (Hdownload (Exited 1) sample.fs); [reflexivity | reflexivity | discriminate].
  - destruct (pipeline_stops_at_first_failure
                (sample.host_with (Exited 0) LaunchFailed ∅) sample.a sample.w
                {[ "LEVEL" := "debug" ]} eq_refl) as (_ & Hrender & _).
    apply (Hrender
             {| w_fs := sample.fs;
                w_trace :=
                  [Mkdir "DATA";
                   Subprocess ["/usr/bin/python3"; "GFS.py"]
                     (download_env (sample.host_with (Exited 0) LaunchFailed ∅) "DATA"
                        (Some {[ "LEVEL" := "debug" ]}));
                   Print GfsFinished] |}
             LaunchFailed sample.fs); [reflexivity | reflexivity | discriminate].
Defined.

Lemma parse_env_malformed (kvs : list string) (kv : string) (acc : environment) :
  kv ∈ kvs → Str.contains "=" kv = false →
  ∃ msg, parse_env kvs acc = Raise (ValueError msg).
Proof.
  intros Hin Hkv. revert acc. induction kvs as [|x kvs IH]; intros acc.
  - by apply elem_of_nil in Hin.
  - simpl. destruct (Str.contains "=" x) eqn:Hx; simpl.
    + destruct (Str.split1 "=" x) as [k v]. apply IH.
      apply elem_of_cons in Hin as [-> | Hin]; [congruence | done].
    + by eexists.
Qed.

(** C4.  When some entry of [--env] has no [=] in it, the pipeline raises
    [ValueError] and the world is as it was: no directory made, no line
    printed, no child started, no mail session opened. *)
Theorem malformed_env_is_rejected (h : host) (a : args.t) (w : world)
    (kvs : list string) (kv : string) :
  args.env a = Some kvs →
  kv ∈ kvs →
  (¬ ∃ k v : string, kv = (k ++ "=" ++ v)%string) →
  ∃ msg, run_pipeline h a w = (Raise (ValueError msg), w).
Proof.
  intros Henv Hin Hkv.
  assert (Str.contains "=" kv = false) as Hno.
  { destruct (Str.contains "=" kv) eqn:E; [| done].
    exfalso. apply Hkv. by apply StrFacts.contains_iff. }
  destruct (parse_env_malformed kvs kv ∅ Hin Hno) as [msg Hmsg].
  exists msg. by rewrite run_pipeline_run, Henv; simpl; rewrite Hmsg.
Qed.

Lemma malformed_env_is_rejected_witness :
  ∃ msg,
    run_pipeline sample.h (sample.with_env (Some ["LEVEL=debug"; "VERBOSE"])) sample.w
    = (Raise (ValueError msg), sample.w).
Proof.
  apply (malformed_env_is_rejected sample.h
           (sample.with_env (Some ["LEVEL=debug"; "VERBOSE"])) sample.w
           ["LEVEL=debug"; "VERBOSE"] "VERBOSE").
  - reflexivity.
  - right. by left.
  - intros H. apply StrFacts.contains_iff in H. discriminate.
Defined.

(** ** The e-mail stage *)

Lemma glob_png_elem (fs : filesystem) (d : string) (p : node) :
  p ∈ glob_png fs d ↔ png_in fs d p.
Proof.
  unfold glob_png, png_in. destruct (fs !! d) as [children|].
  - rewrite list_elem_of_filter, StrFacts.endswith_iff. split.
    + intros [Hname Hin]. by exists children.
    + by intros (? & [= <-] & Hin & Hname).
  - rewrite elem_of_nil. split; [done | by intros (? & ? & _)].
Qed.

Lemma insert_path_Permutation (p : node) (l : list node) : insert_path p l ≡ₚ p :: l.
Proof.
  induction l as [|q l IH]; simpl; [done |].
  destruct (String.leb _ _); [done |]. rewrite IH. apply Permutation_swap.
Qed.

Lemma sorted_Permutation (l : list node) : sorted l ≡ₚ l.
Proof.
  induction l as [|p l IH]; simpl; [done |].
  by rewrite insert_path_Permutation, IH.
Qed.

Lemma sorted_nil (l : list node) : sorted l = [] ↔ l = [].
Proof.
  split; [| by intros ->].
  intros H. apply Permutation_nil_r. rewrite <- H. symmetry. apply sorted_Permutation.
Qed.

Lemma insert_path_HdRel (p q : node) (l : list node) :
  String.leb (node_name q) (node_name p) = true →
  HdRel (λ a b, String.leb (node_name a) (node_name b) = true) q l →
  HdRel (λ a b, String.leb (node_name a) (node_name b) = true) q (insert_path p l).
Proof.
  intros Hqp Hhd. destruct l as [|r l]; simpl.
  - by constructor.
  - destruct (String.leb (node_name p) (node_name r)); constructor; [done |].
    by inversion Hhd.
Qed.

Lemma insert_path_Sorted (p : node) (l : list node) :
  Sorted (λ a b, String.leb (node_name a) (node_name b) = true) l →
  Sorted (λ a b, String.leb (node_name a) (node_name b) = true) (insert_path p l).
Proof.
  induction 1 as [|q l Hl IH Hhd]; simpl.
  - by repeat constructor.
  - destruct (String.leb (node_name p) (node_name q)) eqn:E.
    + constructor; [by constructor |]. by constructor.
    + constructor; [done |]. apply insert_path_HdRel; [| done].
      by destruct (String.leb_total (node_name p) (node_name q)) as [? | ?]; [congruence |].
Qed.

Lemma sorted_Sorted (l : list node) :
  Sorted (λ a b, String.leb (node_name a) (node_name b) = true) (sorted l).
Proof.
  induction l as [|p l IH]; simpl; [constructor | by apply insert_path_Sorted].
Qed.

Lemma arcname_zip_write (p : node) : arcname (zip_write p) = member_name p.
Proof. by destruct p. Qed.

Lemma member_name_file (p : node) : is_dir p = false → member_name p = node_name p.
Proof. unfold member_name. by intros ->. Qed.

(** Every mail action of a run belongs to one exchange, whose message wraps
    the sorted PNG paths and whose credential is [credential]. *)
Lemma send_images_via_email_mail (h : host)
    (image_dir : string) (sender : option string) (recipients : option (list string))
    (subject body smtp_server : string) (port : Z)
    (password : option string) (zip_name : string) (w : world) (e : event) :
  e ∈ events_since w
        (send_images_via_email h image_dir sender recipients subject body smtp_server
           port password zip_name w).2 →
  (∀ msg, e = SmtpSend msg →
          msg = message_for sender recipients subject body zip_name
                  (sorted (glob_png (w_fs w) image_dir))) ∧
  (∀ user c, e = SmtpLogin user c → credential h password = Some c).
Proof.
  rewrite send_images_via_email_run.
  destruct (negb (truthy sender) || negb (truthy_list recipients)).
  { simpl. rewrite events_since_refl. by intros ?%elem_of_nil. }
  destruct (credential h password) as [pw|]; last first.
  { simpl. rewrite events_since_refl. by intros ?%elem_of_nil. }
  cbv zeta. destruct (bool_decide _).
  { simpl. rewrite events_since_refl. by intros ?%elem_of_nil. }
  destruct (_zip_images h _) as [entries|err].
  2: { cbn [snd]. rewrite events_since_app. intros ->%list_elem_of_singleton.
       split; intros; discriminate. }
  cbn [snd]. rewrite events_since_app. unfold smtp_dialogue.
  destruct (smtp_accepts h smtp_server port); [| cbn [fst snd]].
  - destruct (smtp_authenticates h (default "" sender) pw); cbn [fst snd].
    + rewrite elem_of_cons, elem_of_app, !elem_of_cons.
      intros [-> | [[-> | [-> | [-> | [-> | []%elem_of_nil]]]] | He]];
        try (split; intros; congruence).
      destruct (smtp_delivers h _); [| by apply elem_of_nil in He].
      apply list_elem_of_singleton in He as ->. split; intros; congruence.
    + rewrite elem_of_cons, elem_of_app, !elem_of_cons, !elem_of_nil.
      intros [-> | [[-> | [-> | [-> | []]]] | []]]; split; intros; congruence.
  - rewrite elem_of_cons, elem_of_app, !elem_of_cons, !elem_of_nil.
    intros [-> | [[-> | []] | []]]; split; intros; congruence.
Qed.

(** The stage reaches the mail server only with an archive of all the
    paths: [zf.write] has taken every one of them. *)
Lemma send_images_via_email_zipped (h : host)
    (image_dir : string) (sender : option string) (recipients : option (list string))
    (subject body smtp_server : string) (port : Z)
    (password : option string) (zip_name : string) (w : world) (e : event) :
  e ∈ events_since w
        (send_images_via_email h image_dir sender recipients subject body smtp_server
           port password zip_name w).2 →
  is_smtp e = true →
  Forall (λ p, zip_refuses h p = None) (sorted (glob_png (w_fs w) image_dir)).
Proof.
  rewrite send_images_via_email_run.
  destruct (negb (truthy sender) || negb (truthy_list recipients)).
  { simpl. rewrite events_since_refl. by intros ?%elem_of_nil. }
  destruct (credential h password) as [pw|]; last first.
  { simpl. rewrite events_since_refl. by intros ?%elem_of_nil. }
  cbv zeta. destruct (bool_decide _).
  { simpl. rewrite events_since_refl. by intros ?%elem_of_nil. }
  destruct (_zip_images h _) as [entries|err] eqn:Hzip.
  - intros _ _. by apply _zip_images_Ok in Hzip as [Hall _].
  - cbn [snd]. rewrite events_since_app. by intros ->%list_elem_of_singleton.
Qed.

(** C5.  Without a sender, without recipients (none given or an empty
    list), or without a credential (no password argument and no
    [EMAIL_PASSWORD] in the environment) the e-mail stage raises
    [ValueError] and leaves the world as it was: no connection to the mail
    server is attempted. *)
Theorem missing_configuration_is_rejected (h : host)
    (image_dir : string) (sender : option string) (recipients : option (list string))
    (subject body smtp_server : string) (port : Z)
    (password : option string) (zip_name : string) (w : world) :
  sender = None ∨ recipients = None ∨ recipients = Some [] ∨
    (password = None ∧ environ h !! "EMAIL_PASSWORD" = None) →
  ∃ msg,
    send_images_via_email h image_dir sender recipients subject body smtp_server port
      password zip_name w = (Raise (ValueError msg), w).
Proof.
  intros Hmissing. rewrite send_images_via_email_run.
  destruct (negb (truthy sender) || negb (truthy_list recipients)) eqn:Hcheck.
  { by eexists. }
  destruct Hmissing as [-> | [-> | [-> | [-> Henv]]]]; try done.
  { by destruct (truthy sender). }
  { by destruct (truthy sender). }
  unfold credential. simpl. rewrite Henv. by eexists.
Qed.

Lemma missing_configuration_is_rejected_witness :
  ∃ msg,
    sample.send sample.h "FIGS" (Some "ops@example.org") (Some ["a@example.org"]) None
      sample.w = (Raise (ValueError msg), sample.w).
Proof.
  apply (missing_configuration_is_rejected sample.h "FIGS" (Some "ops@example.org")
           (Some ["a@example.org"]) "GFS Forecast" "Good morning" "smtp.example.org" 465
           None "PVU_Figures.zip" sample.w).
  do 3 right. split; reflexivity.
Defined.

(** The literal reading of C6 fails when the configuration is incomplete:
    with no sender and a directory without PNG files the stage raises
    [ValueError], not [FileNotFoundError]. *)
Lemma no_png_without_sender_is_value_error :
  (∀ p, ¬ png_in (w_fs sample.w) "DATA" p) ∧
  sample.send sample.h "DATA" None (Some ["a@example.org"]) (Some "hunter2") sample.w
  = (Raise (ValueError "`sender` and `recipients` are required for e‑mail sending."),
     sample.w) ∧
  ∀ msg,
    sample.send sample.h "DATA" None (Some ["a@example.org"]) (Some "hunter2") sample.w
    ≠ (Raise (FileNotFoundError msg), sample.w).
Proof.
  split; [| split].
  - intros p Hp%glob_png_elem. by apply elem_of_nil in Hp.
  - reflexivity.
  - discriminate.
Qed.

(** C6, as the code has it.  When no child of the image directory is named
    [*.png], the e-mail stage fails and leaves the world as it was: no
    archive has been built, no line printed, no connection attempted.  The
    exception is [FileNotFoundError] when a sender, a non-empty recipient
    list and a credential are there; otherwise it is the [ValueError] of the
    configuration checks, which run first. *)
Theorem no_png_fails_early (h : host)
    (image_dir : string) (sender : option string) (recipients : option (list string))
    (subject body smtp_server : string) (port : Z)
    (password : option string) (zip_name : string) (w : world) :
  (∀ p, ¬ png_in (w_fs w) image_dir p) →
  let run := send_images_via_email h image_dir sender recipients subject body
               smtp_server port password zip_name w in
  (∃ e, run = (Raise e, w)) ∧
  (truthy sender = true → truthy_list recipients = true →
   is_Some (credential h password) →
   ∃ msg, run = (Raise (FileNotFoundError msg), w)) ∧
  (truthy sender = false ∨ truthy_list recipients = false ∨
   credential h password = None →
   ∃ msg, run = (Raise (ValueError msg), w)).
Proof.
  intros Hnone run. subst run. rewrite send_images_via_email_run.
  assert (bool_decide (sorted (glob_png (w_fs w) image_dir) = []) = true) as Hempty.
  { apply bool_decide_eq_true, sorted_nil, elem_of_nil_inv.
    intros p Hp%glob_png_elem. by eapply Hnone. }
  split; [| split].
  - destruct (negb (truthy sender) || negb (truthy_list recipients)); [by eexists |].
    destruct (credential h password); [| by eexists].
    cbv zeta. rewrite Hempty. by eexists.
  - intros -> -> [pw ->]. simpl. rewrite Hempty. by eexists.
  - intros Hmissing.
    destruct (negb (truthy sender) || negb (truthy_list recipients)) eqn:Hcheck;
      [by eexists |].
    apply orb_false_iff in Hcheck as [Hs%negb_false_iff Hr%negb_false_iff].
    destruct Hmissing as [Hs' | [Hr' | ->]]; [congruence | congruence | by eexists].
Qed.

Lemma no_png_fails_early_witness :
  (∃ msg,
     sample.send sample.h "DATA" (Some "ops@example.org") (Some ["a@example.org"])
       (Some "hunter2") sample.w = (Raise (FileNotFoundError msg), sample.w)) ∧
  (∃ msg,
     sample.send sample.h "DATA" (Some "ops@example.org") (Some [])
       (Some "hunter2") sample.w = (Raise (ValueError msg), sample.w)).
Proof.
  assert (∀ p, ¬ png_in (w_fs sample.w) "DATA" p) as Hnone.
  { intros p Hp%glob_png_elem. by apply elem_of_nil in Hp. }
  split.
  - destruct (no_png_fails_early sample.h "DATA" (Some "ops@example.org")
                (Some ["a@example.org"]) "GFS Forecast" "Good morning" "smtp.example.org"
                465 (Some "hunter2") "PVU_Figures.zip" sample.w Hnone) as (_ & Hfnf & _).
    apply Hfnf; [reflexivity | reflexivity | by eexists].
  - destruct (no_png_fails_early sample.h "DATA" (Some "ops@example.org")
                (Some []) "GFS Forecast" "Good morning" "smtp.example.org"
                465 (Some "hunter2") "PVU_Figures.zip" sample.w Hnone) as (_ & _ & Hval).
    apply Hval. right. left. reflexivity.
Defined.

(** The sample figures are dated 2024 on the sample host, which the ZIP
    format holds. *)
Lemma sample_figures_are_taken :
  localtime_year sample.h (node_mtime sample.a_png) = Ok 2024 ∧
  Forall (λ p, zip_refuses sample.h p = None) [sample.a_png; sample.b_png; sample.d_png].
Proof. split; [by vm_compute | repeat constructor]. Qed.

(** A figure last modified in 1979 stops the stage after its announcement:
    [zf.write] refuses it and no connection is opened. *)
Lemma old_figure_is_refused :
  localtime_year sample.h (300000000 * US_PER_SECOND) = Ok 1979 ∧
  sample.send sample.h "FIGS" (Some "ops@example.org") (Some ["a@example.org"])
    (Some "hunter2") {| w_fs := sample.old_figures; w_trace := [] |}
  = (Raise (ValueError "ZIP does not support timestamps before 1980"),
     {| w_fs := sample.old_figures;
        w_trace := [Print (Sending 1 "a@example.org")] |}).
Proof. split; by vm_compute. Qed.

(** The literal reading of C7 fails on a sub-directory named [*.png]: the
    pattern matches it and its entry is named with a trailing slash, which
    is the base name of nothing in the directory.  Both children of [MIXED]
    were last modified on 1 June 2024. *)
Lemma directory_entry_gets_a_slash :
  ∃ msg,
    SmtpSend msg
      ∈ events_since sample.w
          (sample.send sample.h "MIXED" (Some "ops@example.org") (Some ["a@example.org"])
             (Some "hunter2") sample.w).2 ∧
    sample.fs !! "MIXED" = Some [sample.a_png; sample.d_png] ∧
    sample.d_png = Dir "d.png" (sample.june_2024 + 11 * US_PER_SECOND) [] ∧
    zip_refuses sample.h sample.a_png = None ∧
    zip_refuses sample.h sample.d_png = None ∧
    arcname <$> msg_attachment msg = ["a.png"; "d.png/"] ∧
    "d.png/" ∉ node_name <$> [sample.a_png; sample.d_png].
Proof.
  exists (message_for (Some "ops@example.org") (Some ["a@example.org"]) "GFS Forecast"
            "Good morning" "PVU_Figures.zip" [sample.a_png; sample.d_png]).
  split; [| split; [| split; [| split; [| split; [| split]]]]].
  - assert (events_since sample.w
              (sample.send sample.h "MIXED" (Some "ops@example.org")
                 (Some ["a@example.org"]) (Some "hunter2") sample.w).2
            = sample.exchange "ops@example.org" "hunter2" ["a@example.org"]
                [sample.a_png; sample.d_png]) as -> by (by vm_compute).
    do 3 right. by left.
  - reflexivity.
  - reflexivity.
  - reflexivity.
  - reflexivity.
  - reflexivity.
  - intros Hin. repeat (apply elem_of_cons in Hin as [Hin | Hin]; [discriminate |]).
    by apply elem_of_nil in Hin.
Qed.

(** C7, as the code has it.  The archive that the stage sends holds exactly
    one entry per child of the image directory named [*.png], as the
    directory stands when the stage is called, in the order of the names;
    [zf.write] has taken each of them, which it does for a path dated from
    1980 to 2107.  The entry of a regular file carries the file's bytes under its base
    name, with no directory prefix; a sub-directory with such a name gets an
    empty entry named by its base name followed by a slash.  For a directory
    whose PNG children are the regular files [a.png] and [b.png] the entries
    are named [a.png] and [b.png], in this order. *)
Theorem archive_members (h : host)
    (image_dir : string) (sender : option string) (recipients : option (list string))
    (subject body smtp_server : string) (port : Z)
    (password : option string) (zip_name : string) (w : world) (msg : email) :
  SmtpSend msg
    ∈ events_since w
        (send_images_via_email h image_dir sender recipients subject body smtp_server
           port password zip_name w).2 →
  (∃ paths,
     paths ≡ₚ glob_png (w_fs w) image_dir ∧
     Sorted (λ a b, String.leb (node_name a) (node_name b) = true) paths ∧
     (∀ p, p ∈ paths ↔ png_in (w_fs w) image_dir p) ∧
     Forall (λ p, zip_refuses h p = None) paths ∧
     msg_attachment msg = zip_write <$> paths ∧
     arcname <$> msg_attachment msg = member_name <$> paths ∧
     (Forall (λ p, is_dir p = false) paths →
      arcname <$> msg_attachment msg = node_name <$> paths)) ∧
  (∀ ta da tb db,
     glob_png (w_fs w) image_dir ≡ₚ [File "a.png" ta da; File "b.png" tb db] →
     msg_attachment msg =
     [{| arcname := "a.png"; payload := Some da |};
      {| arcname := "b.png"; payload := Some db |}]).
Proof.
  intros Hsend.
  pose proof (send_images_via_email_zipped _ _ _ _ _ _ _ _ _ _ _ _ Hsend eq_refl)
    as Hzipped.
  destruct (send_images_via_email_mail _ _ _ _ _ _ _ _ _ _ _ _ Hsend) as [Hmsg _].
  specialize (Hmsg msg eq_refl). subst msg. simpl. split.
  - exists (sorted (glob_png (w_fs w) image_dir)).
    split; [apply sorted_Permutation |]. split; [apply sorted_Sorted |].
    split; [| split; [done |]; split; [done |]].
    + intros p. by rewrite sorted_Permutation, glob_png_elem.
    + rewrite <- list_fmap_compose. split.
      * apply list_fmap_ext. intros i p _. apply arcname_zip_write.
      * intros Hfiles. apply Forall_fmap_ext_1.
        eapply Forall_impl; [exact Hfiles |].
        intros p Hp. simpl. by rewrite arcname_zip_write, member_name_file.
  - intros ta da tb db Hperm. symmetry in Hperm.
    apply Permutation_length_2_inv in Hperm as [-> | ->]; reflexivity.
Qed.

Lemma archive_members_witness :
  ∃ msg,
    SmtpSend msg
      ∈ events_since sample.w
          (sample.send sample.h "FIGS" (Some "ops@example.org") (Some ["a@example.org"])
             (Some "hunter2") sample.w).2 ∧
    msg_attachment msg =
    [{| arcname := "a.png"; payload := Some "A" |};
     {| arcname := "b.png"; payload := Some "B" |}].
Proof.
  set (msg := message_for (Some "ops@example.org") (Some ["a@example.org"])
                "GFS Forecast" "Good morning" "PVU_Figures.zip"
                [sample.a_png; sample.b_png]).
  assert (SmtpSend msg
            ∈ events_since sample.w
                (sample.send sample.h "FIGS" (Some "ops@example.org")
                   (Some ["a@example.org"]) (Some "hunter2") sample.w).2) as Hsend.
  { assert (events_since sample.w
              (sample.send sample.h "FIGS" (Some "ops@example.org")
                 (Some ["a@example.org"]) (Some "hunter2") sample.w).2
            = sample.exchange "ops@example.org" "hunter2" ["a@example.org"]
                [sample.a_png; sample.b_png]) as -> by (by vm_compute).
    do 3 right. by left. }
  exists msg. split; [exact Hsend |].
  destruct (archive_members _ _ _ _ _ _ _ _ _ _ _ _ Hsend) as [_ Hab].
  apply (Hab (sample.june_2024 + 10 * US_PER_SECOND) "A"
             (sample.june_2024 + 20 * US_PER_SECOND) "B").
  assert (glob_png (w_fs sample.w) "FIGS" = [sample.b_png; sample.a_png])
    as -> by reflexivity.
  apply Permutation_swap.
Defined.

(** The literal reading of C8 fails on an empty password argument: it is
    supplied, and the stage still authenticates with the value of
    [EMAIL_PASSWORD].  The figures of [FIGS] were last modified on 1 June
    2024, so the archive is built and the stage reaches the server. *)
Lemma empty_password_falls_back :
  let h := sample.host_with (Exited 0) (Exited 0)
             {[ "EMAIL_PASSWORD" := "from-the-environment" ]} in
  sample.fs !! "FIGS" = Some sample.figures ∧
  Forall (λ p, zip_refuses h p = None) [sample.a_png; sample.b_png] ∧
  SmtpLogin "ops@example.org" "from-the-environment"
    ∈ events_since sample.w
        (sample.send h "FIGS" (Some "ops@example.org") (Some ["a@example.org"]) (Some "")
           sample.w).2 ∧
  "from-the-environment" ≠ "".
Proof.
  cbv zeta. split; [reflexivity |]. split; [repeat constructor |].
  split; [| discriminate].
  assert (events_since sample.w
            (sample.send
               (sample.host_with (Exited 0) (Exited 0)
                  {[ "EMAIL_PASSWORD" := "from-the-environment" ]})
               "FIGS" (Some "ops@example.org") (Some ["a@example.org"]) (Some "")
               sample.w).2
          = sample.exchange "ops@example.org" "from-the-environment" ["a@example.org"]
              [sample.a_png; sample.b_png]) as -> by (by vm_compute).
  do 2 right. by left.
Qed.

(** C8, as the code has it.  Whenever the stage authenticates, the
    credential is the password argument if that is a non-empty string, and
    the value of [EMAIL_PASSWORD] if the argument is absent or empty: a
    non-empty argument takes priority over the environment. *)
Theorem credential_priority (h : host)
    (image_dir : string) (sender : option string) (recipients : option (list string))
    (subject body smtp_server : string) (port : Z)
    (password : option string) (zip_name : string) (w : world) (user c : string) :
  SmtpLogin user c
    ∈ events_since w
        (send_images_via_email h image_dir sender recipients subject body smtp_server
           port password zip_name w).2 →
  (∀ p, password = Some p → p ≠ "" → c = p) ∧
  (password = None ∨ password = Some "" → environ h !! "EMAIL_PASSWORD" = Some c).
Proof.
  intros Hlogin.
  destruct (send_images_via_email_mail _ _ _ _ _ _ _ _ _ _ _ _ Hlogin) as [_ Hcred].
  specialize (Hcred user c eq_refl). unfold credential in Hcred. split.
  - intros p -> Hp. simpl in Hcred.
    destruct (String.eqb_spec p ""); [done |]. simpl in Hcred. congruence.
  - by intros [-> | ->].
Qed.

Lemma credential_priority_witness :
  SmtpLogin "ops@example.org" "hunter2"
    ∈ events_since sample.w
        (sample.send
           (sample.host_with (Exited 0) (Exited 0)
              {[ "EMAIL_PASSWORD" := "from-the-environment" ]})
           "FIGS" (Some "ops@example.org") (Some ["a@example.org"]) (Some "hunter2")
           sample.w).2 ∧
  ∀ p, Some "hunter2" = Some p → p ≠ "" → "hunter2" = p.
Proof.
  assert (SmtpLogin "ops@example.org" "hunter2"
            ∈ events_since sample.w
                (sample.send
                   (sample.host_with (Exited 0) (Exited 0)
                      {[ "EMAIL_PASSWORD" := "from-the-environment" ]})
                   "FIGS" (Some "ops@example.org") (Some ["a@example.org"])
                   (Some "hunter2") sample.w).2) as Hlogin.
  { assert (events_since sample.w
              (sample.send
                 (sample.host_with (Exited 0) (Exited 0)
                    {[ "EMAIL_PASSWORD" := "from-the-environment" ]})
                 "FIGS" (Some "ops@example.org") (Some ["a@example.org"])
                 (Some "hunter2") sample.w).2
            = sample.exchange "ops@example.org" "hunter2" ["a@example.org"]
                [sample.a_png; sample.b_png]) as -> by (by vm_compute).
    do 2 right. by left. }
  split; [exact Hlogin |].
  apply (credential_priority _ _ _ _ _ _ _ _ _ _ _ _ _ Hlogin).
Defined.

(** * Further properties of the driver *)

(** ** The freshness gate *)

Lemma same_day_within_a_day (t now : Z) :
  utc_date t = utc_date now → now - t < US_PER_DAY.
Proof.
  unfold utc_date, US_PER_DAY, US_PER_SECOND. intros Hday.
  pose proof (Z.div_mod t (86400 * 1000000)) as Ht.
  pose proof (Z.div_mod now (86400 * 1000000)) as Hn.
  pose proof (Z.mod_pos_bound t (86400 * 1000000)) as Hbt.
  pose proof (Z.mod_pos_bound now (86400 * 1000000)) as Hbn.
  rewrite Hday in Ht. lia.
Qed.

(** X1.  Whenever the gate answers "skip", the newest marked file is
    younger than the threshold or younger than one day, whichever is
    larger: the same-day rule never lets data older than 24 hours pass. *)
Theorem skip_bounds_staleness
    (now : Z) (fs : filesystem) (data_dir : string) (max_age_hours : Z) :
  _should_skip_download now fs data_dir max_age_hours = true →
  ∃ t, newest_grib fs data_dir t ∧
       now - t < Z.max (max_age_hours * 3600 * US_PER_SECOND) US_PER_DAY.
Proof.
  unfold _should_skip_download.
  destruct (_latest_mtime fs data_dir) as [t|] eqn:E; [| done].
  apply _latest_mtime_Some in E. simpl.
  rewrite orb_true_iff, !bool_decide_eq_true. intros [Hfresh | Hday]; exists t.
  - split; [done | lia].
  - split; [done |]. apply same_day_within_a_day in Hday. lia.
Qed.

Lemma skip_bounds_staleness_witness :
  ∃ t, newest_grib sample.fs "OLD" t ∧
       3000000 - t < Z.max (6 * 3600 * US_PER_SECOND) US_PER_DAY.
Proof.
  apply (skip_bounds_staleness 3000000 sample.fs "OLD" 6). reflexivity.
Defined.

(** X2.  Raising the threshold never turns "skip" into "refresh needed". *)
Theorem skip_is_monotone
    (now : Z) (fs : filesystem) (data_dir : string) (h1 h2 : Z) :
  h1 ≤ h2 →
  _should_skip_download now fs data_dir h1 = true →
  _should_skip_download now fs data_dir h2 = true.
Proof.
  intros Hle. unfold _should_skip_download, US_PER_SECOND.
  destruct (_latest_mtime fs data_dir) as [t|]; [| done]. simpl.
  rewrite !orb_true_iff, !bool_decide_eq_true. intros [Hfresh | Hday]; [left; lia | by right].
Qed.

Lemma skip_is_monotone_witness :
  _should_skip_download 3000000 sample.fs "OLD" 48 = true.
Proof.
  apply (skip_is_monotone 3000000 sample.fs "OLD" 6 48); [lia | reflexivity].
Defined.

(** X3.  A marked entry stamped at or after the present moment suppresses
    the download for every positive threshold, as far in the future as a
    [datetime] reaches: the stamp has to lie before the year 10000, from
    which on [datetime.fromtimestamp] raises instead.  The elapsed time is
    then zero or negative, which no rounding lifts to a positive
    threshold. *)
Theorem future_stamp_always_skips
    (now : Z) (fs : filesystem) (data_dir : string) (max_age_hours t : Z) :
  newest_grib fs data_dir t →
  representable now →
  representable t →
  now ≤ t →
  0 < max_age_hours →
  _should_skip_download now fs data_dir max_age_hours = true.
Proof.
  intros Hnew _ _ Hfuture Hpos. unfold _should_skip_download, US_PER_SECOND.
  apply _latest_mtime_Some in Hnew as ->. simpl.
  apply orb_true_iff. left. apply bool_decide_eq_true. lia.
Qed.

Lemma future_stamp_always_skips_witness :
  _should_skip_download 3000000 sample.fs "OLD" 1 = true.
Proof.
  apply (future_stamp_always_skips 3000000 sample.fs "OLD" 1 7000000).
  - by apply _latest_mtime_Some.
  - by vm_compute.
  - by vm_compute.
  - lia.
  - lia.
Defined.

Lemma _latest_mtime_ext (fs fs' : filesystem) (d d' : string) :
  (∀ p, grib_under fs d p ↔ grib_under fs' d' p) →
  _latest_mtime fs d = _latest_mtime fs' d'.
Proof.
  intros Hsame.
  assert (∀ t, newest_grib fs d t ↔ newest_grib fs' d' t) as Hnew.
  { intros t. unfold newest_grib. split; intros [(p & Hp & Ht) Hup]; split.
    - exists p. by rewrite <- Hsame.
    - intros q Hq. apply Hup. by rewrite Hsame.
    - exists p. by rewrite Hsame.
    - intros q Hq. apply Hup. by rewrite <- Hsame. }
  destruct (_latest_mtime fs d) as [t|] eqn:E.
  - symmetry. by apply _latest_mtime_Some, Hnew, _latest_mtime_Some.
  - symmetry. apply _latest_mtime_None. intros p Hp%Hsame.
    by eapply _latest_mtime_None in E.
Qed.

(** X4.  The answer of the gate depends on the marked files alone: two
    directories with the same marked files get the same answer.  So the
    order in which the directory is listed does not matter, and neither
    does a regular file without a marker in its name. *)
Theorem gate_depends_on_marked_files
    (now : Z) (fs : filesystem) (data_dir : string) (max_age_hours : Z) :
  (∀ fs' d',
     (∀ p, grib_under fs data_dir p ↔ grib_under fs' d' p) →
     _should_skip_download now fs' d' max_age_hours =
     _should_skip_download now fs data_dir max_age_hours) ∧
  (∀ l l',
     fs !! data_dir = Some l → l ≡ₚ l' →
     _should_skip_download now (<[data_dir := l']> fs) data_dir max_age_hours =
     _should_skip_download now fs data_dir max_age_hours) ∧
  (∀ l name mtime data,
     fs !! data_dir = Some l → is_grib_name name = false →
     _should_skip_download now (<[data_dir := File name mtime data :: l]> fs)
       data_dir max_age_hours =
     _should_skip_download now fs data_dir max_age_hours).
Proof.
  assert (∀ fs' d',
            (∀ p, grib_under fs data_dir p ↔ grib_under fs' d' p) →
            _should_skip_download now fs' d' max_age_hours =
            _should_skip_download now fs data_dir max_age_hours) as Hext.
  { intros fs' d' Hsame. unfold _should_skip_download.
    by rewrite (_latest_mtime_ext fs fs' data_dir d' Hsame). }
  split; [done |]. split.
  - intros l l' Hl Hperm. apply Hext. intros p. unfold grib_under.
    rewrite Hl, lookup_insert_eq. split.
    + intros (? & [= <-] & Hin & Hg). exists l'.
      split; [done |]. split; [by eapply inside_Permutation | done].
    + intros (? & [= <-] & Hin & Hg). exists l.
      split; [done |]. split; [| done].
      eapply inside_Permutation; [symmetry; exact Hperm | done].
  - intros l name mtime data Hl Hname. apply Hext. intros p. unfold grib_under.
    rewrite Hl, lookup_insert_eq. split.
    + intros (? & [= <-] & Hin & Hg). eexists. split; [done |]. split; [| done].
      apply inside_cons. by right.
    + intros (? & [= <-] & Hin & Hg). exists l. split; [done |]. split; [| done].
      apply inside_cons in Hin as [Hin | Hin]; [| done].
      apply list_elem_of_singleton in Hin as ->. simpl in Hg. congruence.
Qed.

Lemma gate_depends_on_marked_files_witness :
  _should_skip_download 3000000
    (<["OLD" := [File "notes.txt" 9000000 "n"; Dir "run" 5 [sample.grib]]]> sample.fs)
    "OLD" 6 =
  _should_skip_download 3000000 sample.fs "OLD" 6.
Proof.
  destruct (gate_depends_on_marked_files 3000000 sample.fs "OLD" 6) as (_ & _ & Hfile).
  apply (Hfile [Dir "run" 5 [sample.grib]] "notes.txt" 9000000 "n"); reflexivity.
Defined.

(** ** The [--env] entries *)

Lemma contains_char_cons (c a : ascii) (r : string) :
  Str.contains (String c EmptyString) (String a r) =
  Ascii.eqb a c || Str.contains (String c EmptyString) r.
Proof.
  change (Str.contains (String c "") (String a r))
    with (String.prefix (String c "") (String a r) || Str.contains (String c "") r).
  f_equal. simpl. destruct (ascii_dec c a) as [-> | Hne].
  - rewrite Ascii.eqb_refl. by destruct r.
  - symmetry. apply Ascii.eqb_neq. congruence.
Qed.

Lemma split1_decompose (c : ascii) (kv : string) :
  Str.contains (String c EmptyString) kv = true →
  kv = ((Str.split1 c kv).1 ++ String c EmptyString ++ (Str.split1 c kv).2)%string ∧
  Str.contains (String c EmptyString) (Str.split1 c kv).1 = false.
Proof.
  induction kv as [|a r IH]; [done |].
  rewrite contains_char_cons. cbn [Str.split1]. destruct (Ascii.eqb a c) eqn:E.
  - intros _. apply Ascii.eqb_eq in E as ->. by split.
  - cbn [orb]. intros [Hr Hk]%IH. destruct (Str.split1 c r) as [k v].
    cbn [fst snd] in *. split.
    + rewrite StrFacts.append_String. by f_equal.
    + by rewrite contains_char_cons, E.
Qed.

Lemma split1_compose (c : ascii) (k v : string) :
  Str.contains (String c EmptyString) k = false →
  Str.split1 c (k ++ String c EmptyString ++ v)%string = (k, v).
Proof.
  induction k as [|a k IH].
  - intros _. rewrite !StrFacts.append_empty, StrFacts.append_String.
    cbn [Str.split1]. by rewrite Ascii.eqb_refl.
  - rewrite contains_char_cons. intros [Ha Hk]%orb_false_iff.
    rewrite StrFacts.append_String. cbn [Str.split1]. by rewrite Ha, IH.
Qed.

(** X5.  An entry splits at its first [=]: a key without [=] followed by
    [=] and any value, further [=] signs included, is read back as that key
    and that value; and every entry that has an [=] is its key, an [=] and
    its value, the key holding no [=]. *)
Theorem env_entry_round_trip (k v kv : string) :
  (Str.contains "=" k = false → Str.split1 "=" (k ++ "=" ++ v)%string = (k, v)) ∧
  (Str.contains "=" kv = true →
   kv = ((Str.split1 "=" kv).1 ++ "=" ++ (Str.split1 "=" kv).2)%string ∧
   Str.contains "=" (Str.split1 "=" kv).1 = false).
Proof.
  split.
  - apply split1_compose.
  - apply split1_decompose.
Qed.

Lemma env_entry_round_trip_witness :
  Str.split1 "=" "PATH=/a=b" = ("PATH", "/a=b") ∧
  "PATH=/a=b" = ((Str.split1 "=" "PATH=/a=b").1 ++ "=" ++ (Str.split1 "=" "PATH=/a=b").2)%string.
Proof.
  destruct (env_entry_round_trip "PATH" "/a=b" "PATH=/a=b") as [Hto Hfrom].
  split; [by apply Hto | by apply Hfrom].
Defined.

(** X6.  The loop over [--env] accepts a list exactly when every entry has
    an [=]; the dictionary it builds then maps a key to the value of the
    last entry that sets it, and holds no other key. *)
Theorem parse_env_last_wins (kvs : list string) :
  ((∃ m, parse_env kvs ∅ = Ok m) ↔ Forall (λ kv, Str.contains "=" kv = true) kvs) ∧
  (∀ m k, parse_env kvs ∅ = Ok m →
          m !! k = (λ kv, (Str.split1 "=" kv).2)
                     <$> last (filter (λ kv, sets_key k kv = true) kvs)).
Proof.
  assert (∀ acc, (∃ m, parse_env kvs acc = Ok m) ↔
                 Forall (λ kv, Str.contains "=" kv = true) kvs) as Hacc.
  { induction kvs as [|kv kvs IH]; intros acc; simpl.
    - split; [by constructor | by eexists].
    - rewrite Forall_cons. destruct (Str.contains "=" kv); simpl.
      + destruct (Str.split1 "=" kv) as [k v]. rewrite IH. tauto.
      + split; [by intros [m ?] | by intros [? _]]. }
  assert (∀ (acc m : environment) k,
            parse_env kvs acc = Ok m →
            m !! k = match last (filter (λ kv, sets_key k kv = true) kvs) with
                     | Some kv => Some (Str.split1 "=" kv).2
                     | None => acc !! k
                     end) as Hlast.
  { clear Hacc. induction kvs as [|kv kvs IH]; intros acc m k.
    - by intros [= <-].
    - rewrite filter_cons. cbn [parse_env].
      destruct (Str.contains "=" kv) eqn:Hc; cbn [negb]; [| done].
      destruct (Str.split1 "=" kv) as [k' v'] eqn:Hs.
      intros Hm. rewrite (IH _ _ k Hm).
      assert (sets_key k kv = String.eqb k' k) as Hkey
        by (unfold sets_key; by rewrite Hc, Hs).
      destruct (String.eqb_spec k' k) as [-> | Hne].
      + rewrite decide_True by done. rewrite last_cons.
        destruct (last _); [done |]. cbn beta iota. by rewrite Hs, lookup_insert_eq.
      + rewrite decide_False by (rewrite Hkey; done).
        destruct (last _); [done |]. by rewrite lookup_insert_ne. }
  split; [apply Hacc |].
  intros m k Hm. rewrite (Hlast ∅ m k Hm).
  destruct (last _); [done |]. by rewrite lookup_empty.
Qed.

Lemma parse_env_last_wins_witness :
  ∃ m, parse_env ["A=1"; "B=2"; "A=3=4"] ∅ = Ok m ∧ m !! "A" = Some "3=4".
Proof.
  destruct (parse_env_last_wins ["A=1"; "B=2"; "A=3=4"]) as [Hok Hlast].
  destruct (proj2 Hok) as [m Hm].
  { repeat constructor. }
  exists m. split; [done |]. by rewrite (Hlast m "A" Hm).
Defined.

(** ** Traces of the stages *)

Lemma events_since_trans (w w1 w2 : world) (evs1 evs2 : list event) :
  w_trace w1 = (w_trace w ++ evs1)%list →
  w_trace w2 = (w_trace w1 ++ evs2)%list →
  events_since w w2 = (evs1 ++ evs2)%list.
Proof.
  intros H1 H2. unfold events_since. rewrite H2, H1, <- app_assoc.
  apply drop_app_length.
Qed.

Lemma run_gfs_download_grows (h : host) (data_dir python_executable gfs_script : string)
    (extra_env : option environment) (max_age_hours : Z) (force_download : bool)
    (w : world) :
  let w' := (run_gfs_download h data_dir python_executable gfs_script extra_env
               max_age_hours force_download w).2 in
  w_trace w' = (w_trace w ++ events_since w w')%list.
Proof.
  cbv zeta. rewrite run_gfs_download_run. cbv zeta.
  destruct (negb force_download && _); cbn [snd]; by rewrite events_since_app.
Qed.

Lemma run_forecast_plot_grows (h : host)
    (input_dir output_dir python_executable forecast_script : string)
    (extra_env : option environment) (w : world) :
  let w' := (run_forecast_plot h input_dir output_dir python_executable
               forecast_script extra_env w).2 in
  w_trace w' = (w_trace w ++ events_since w w')%list.
Proof.
  cbv zeta. rewrite run_forecast_plot_run. cbv zeta. cbn [snd].
  by rewrite events_since_app.
Qed.

(** The e-mail stage either raises at once, or prints its line and fails
    to build the archive, or prints its line and talks to the server. *)
Lemma send_images_via_email_events (h : host)
    (image_dir : string) (sender : option string) (recipients : option (list string))
    (subject body smtp_server : string) (port : Z)
    (password : option string) (zip_name : string) (w : world) :
  let run := send_images_via_email h image_dir sender recipients subject body
               smtp_server port password zip_name w in
  w_fs run.2 = w_fs w ∧
  ((∃ e, run = (Raise e, w)) ∨
   (∃ e n to,
      run = (Raise e, {| w_fs := w_fs w;
                         w_trace := w_trace w ++ [Print (Sending n to)] |})) ∨
   ∃ pw,
     let paths := sorted (glob_png (w_fs w) image_dir) in
     let msg := message_for sender recipients subject body zip_name paths in
     let d := smtp_dialogue h smtp_server port (default "" sender) pw msg in
     truthy sender = true ∧ truthy_list recipients = true ∧
     credential h password = Some pw ∧ paths ≠ [] ∧
     run.1 = d.1 ∧
     w_trace run.2 =
       (w_trace w ++ Print (Sending (List.length paths) (msg_to msg)) :: d.2 ++
          match d.1 with Ok _ => [Print EmailSent] | Raise _ => [] end)%list).
Proof.
  cbv zeta. rewrite send_images_via_email_run.
  destruct (truthy sender) eqn:Hs; cbn [negb orb]; [| split; [done | left; by eexists]].
  destruct (truthy_list recipients) eqn:Hr; cbn [negb]; [| split; [done | left; by eexists]].
  destruct (credential h password) as [pw|]; [| split; [done | left; by eexists]].
  cbv zeta. destruct (bool_decide _) eqn:Hpaths; [split; [done | left; by eexists] |].
  destruct (_zip_images h _) as [entries|e].
  2: { split; [done |]. right. left. by eexists _, _, _. }
  split; [done |]. do 2 right. exists pw.
  apply bool_decide_eq_false in Hpaths. by repeat split.
Qed.

Lemma send_images_via_email_grows (h : host)
    (image_dir : string) (sender : option string) (recipients : option (list string))
    (subject body smtp_server : string) (port : Z)
    (password : option string) (zip_name : string) (w : world) :
  let w' := (send_images_via_email h image_dir sender recipients subject body
               smtp_server port password zip_name w).2 in
  w_trace w' = (w_trace w ++ events_since w w')%list.
Proof.
  cbv zeta.
  destruct (send_images_via_email_events h image_dir sender recipients subject body
              smtp_server port password zip_name w)
    as [_ [[e ->] | [(e & n & to & ->) | (pw & H)]]].
  - cbn [snd]. by rewrite events_since_refl, app_nil_r.
  - cbn [snd]. by rewrite events_since_app.
  - cbv zeta in H. destruct H as (_ & _ & _ & _ & _ & Htrace).
    unfold events_since. rewrite Htrace at 2. rewrite drop_app_length. exact Htrace.
Qed.

(** The trace of the pipeline is the traces of its stages one after the
    other, up to the first stage that raises. *)
Lemma run_pipeline_events (h : host) (a : args.t) (w : world) (extra : environment) :
  parse_env (default [] (args.env a)) ∅ = Ok extra →
  let d := run_gfs_download h (args.data_dir a) (sys_executable h) (args.gfs_script a)
             (Some extra) (args.max_age_hours a) (args.force_download a) w in
  let r := run_forecast_plot h (args.data_dir a) (args.fig_dir a) (sys_executable h)
             (args.forecast_script a) (Some extra) d.2 in
  let m := (if args.send_email a then
              send_images_via_email h (args.fig_dir a) (args.sender a)
                (args.recipients a) (args.subject a) (args.body a)
                (args.smtp_server a) (args.port a) (args.password a) (args.zip_name a)
            else mret ()) r.2 in
  (run_pipeline h a w).1 =
    match d.1, r.1, m.1 with
    | Raise e, _, _ | Ok _, Raise e, _ | Ok _, Ok _, Raise e => Raise e
    | Ok _, Ok _, Ok _ => Ok ()
    end ∧
  events_since w (run_pipeline h a w).2 =
    (events_since w d.2 ++
     match d.1 with
     | Raise _ => []
     | Ok _ =>
         events_since d.2 r.2 ++
         match r.1 with
         | Raise _ => []
         | Ok _ =>
             events_since r.2 m.2 ++
             match m.1 with
             | Raise _ => []
             | Ok _ => [Print PipelineFinished]
             end
         end
     end)%list.
Proof.
  intros Hparse d r m. rewrite run_pipeline_run, Hparse. fold d.
  pose proof (run_gfs_download_grows h (args.data_dir a) (sys_executable h)
                (args.gfs_script a) (Some extra) (args.max_age_hours a)
                (args.force_download a) w) as Hd.
  cbv zeta in Hd. fold d in Hd.
  destruct d as [[[]|e] w1] eqn:Ed; cbn [fst snd] in *; last first.
  { by rewrite app_nil_r. }
  fold r.
  pose proof (run_forecast_plot_grows h (args.data_dir a) (args.fig_dir a)
                (sys_executable h) (args.forecast_script a) (Some extra) w1) as Hr.
  cbv zeta in Hr. fold r in Hr.
  destruct r as [[[]|e] w2] eqn:Er; cbn [fst snd] in *; last first.
  { split; [done |]. rewrite app_nil_r. by eapply events_since_trans. }
  fold m.
  assert (w_trace m.2 = (w_trace w2 ++ events_since w2 m.2)%list) as Hm.
  { subst m. destruct (args.send_email a).
    - apply send_images_via_email_grows.
    - cbn. by rewrite events_since_refl, app_nil_r. }
  destruct m as [[[]|e] w3] eqn:Em; cbn [fst snd] in *.
  - split; [done |].
    erewrite (events_since_trans w w1); [reflexivity | done |].
    cbn [w_trace]. rewrite Hm, Hr, <- !app_assoc. reflexivity.
  - split; [done |]. rewrite app_nil_r.
    erewrite (events_since_trans w w1); [reflexivity | done |].
    rewrite Hm, Hr, <- !app_assoc. reflexivity.
Qed.

Lemma after_child_prints (c : completed) (l : line) :
  after_child c l = [] ∨ after_child c l = [Print l].
Proof. unfold after_child. destruct (outcome c); auto. Qed.

Lemma run_gfs_download_launches (h : host) (data_dir python_executable gfs_script : string)
    (extra_env : option environment) (max_age_hours : Z) (force_download : bool)
    (w : world) :
  let evs := events_since w
               (run_gfs_download h data_dir python_executable gfs_script extra_env
                  max_age_hours force_download w).2 in
  filter (λ e, is_smtp e = true) evs = [] ∧
  (Print PipelineFinished ∉ evs) ∧
  (filter (λ e, is_subprocess e = true) evs = [] ∨
   filter (λ e, is_subprocess e = true) evs =
     [Subprocess [python_executable; gfs_script] (download_env h data_dir extra_env)]).
Proof.
  cbv zeta. rewrite run_gfs_download_events.
  destruct (negb force_download && _); cbv zeta.
  - split; [done |]. split; [| by left].
    rewrite !elem_of_cons, elem_of_nil. by intros [? | [? | []]].
  - destruct (after_child_prints
                (child h [python_executable; gfs_script]
                   (download_env h data_dir extra_env) (made (w_fs w) data_dir)).1
                GfsFinished) as [-> | ->].
    + split; [done |]. split; [| by right].
      rewrite !elem_of_cons, elem_of_nil. by intros [? | [? | []]].
    + split; [done |]. split; [| by right].
      rewrite !elem_of_cons, elem_of_nil. by intros [? | [? | [? | []]]].
Qed.

Lemma run_forecast_plot_launches (h : host)
    (input_dir output_dir python_executable forecast_script : string)
    (extra_env : option environment) (w : world) :
  let evs := events_since w
               (run_forecast_plot h input_dir output_dir python_executable
                  forecast_script extra_env w).2 in
  filter (λ e, is_smtp e = true) evs = [] ∧
  (Print PipelineFinished ∉ evs) ∧
  filter (λ e, is_subprocess e = true) evs =
    [Subprocess [python_executable; forecast_script]
       (render_env h input_dir output_dir extra_env)].
Proof.
  cbv zeta. rewrite run_forecast_plot_events. cbv zeta.
  destruct (after_child_prints
              (child h [python_executable; forecast_script]
                 (render_env h input_dir output_dir extra_env)
                 (made (w_fs w) output_dir)).1
              FiguresProduced) as [-> | ->].
  - split; [done |]. split; [| done].
    rewrite !elem_of_cons, elem_of_nil. by intros [? | [? | [? | []]]].
  - split; [done |]. split; [| done].
    rewrite !elem_of_cons, elem_of_nil. by intros [? | [? | [? | [? | []]]]].
Qed.

Lemma smtp_dialogue_events (h : host) (smtp_server : string) (port : Z)
    (sender pw : string) (msg : email) :
  let d := smtp_dialogue h smtp_server port sender pw msg in
  filter (λ e, is_smtp e = true) d.2 = d.2 ∧
  filter (λ e, is_subprocess e = true) d.2 = [] ∧
  Print PipelineFinished ∉ d.2.
Proof.
  cbv zeta. unfold smtp_dialogue.
  destruct (smtp_accepts h smtp_server port);
    [destruct (smtp_authenticates h sender pw) |]; cbn [snd];
    (split; [done | split; [done |]]);
    rewrite !elem_of_cons, elem_of_nil; intuition discriminate.
Qed.

Lemma send_images_via_email_launches (h : host)
    (image_dir : string) (sender : option string) (recipients : option (list string))
    (subject body smtp_server : string) (port : Z)
    (password : option string) (zip_name : string) (w : world) :
  let evs := events_since w
               (send_images_via_email h image_dir sender recipients subject body
                  smtp_server port password zip_name w).2 in
  filter (λ e, is_subprocess e = true) evs = [] ∧ Print PipelineFinished ∉ evs.
Proof.
  cbv zeta.
  destruct (send_images_via_email_events h image_dir sender recipients subject body
              smtp_server port password zip_name w)
    as [_ [[e ->] | [(e & n & to & ->) | (pw & H)]]].
  - cbn [snd]. rewrite events_since_refl. split; [done | apply not_elem_of_nil].
  - cbn [snd]. rewrite events_since_app. split; [done |].
    by intros ?%list_elem_of_singleton.
  - cbv zeta in H. destruct H as (_ & _ & _ & _ & _ & Htrace).
    unfold events_since. rewrite Htrace, drop_app_length.
    destruct (smtp_dialogue_events h smtp_server port (default "" sender) pw
                (message_for sender recipients subject body zip_name
                   (sorted (glob_png (w_fs w) image_dir)))) as (_ & Hsub & Hfin).
    cbv zeta in Hsub, Hfin. split.
    + rewrite filter_cons, decide_False by done. rewrite filter_app, Hsub.
      by destruct (smtp_dialogue _ _ _ _ _ _).1.
    + rewrite elem_of_cons, elem_of_app. intros [? | [? | Hin]]; [done | done |].
      destruct (smtp_dialogue _ _ _ _ _ _).1; [| by apply elem_of_nil in Hin].
      by apply list_elem_of_singleton in Hin.
Qed.

(** X7.  The pipeline starts at most two children and nothing else: the
    download child, if the wrapper does not skip, and after it the render
    child, each as [sys.executable] on the script named in the arguments
    and with the environment its wrapper merged. *)
Theorem pipeline_children (h : host) (a : args.t) (w : world) (extra : environment) :
  parse_env (default [] (args.env a)) ∅ = Ok extra →
  ∃ download render,
    filter (λ e, is_subprocess e = true) (events_since w (run_pipeline h a w).2)
      = (download ++ render)%list ∧
    (download = [] ∨
     download = [Subprocess [sys_executable h; args.gfs_script a]
                   (download_env h (args.data_dir a) (Some extra))]) ∧
    (render = [] ∨
     render = [Subprocess [sys_executable h; args.forecast_script a]
                 (render_env h (args.data_dir a) (args.fig_dir a) (Some extra))]).
Proof.
  intros Hparse.
  destruct (run_pipeline_events h a w extra Hparse) as [_ Hevs]. cbv zeta in Hevs.
  rewrite Hevs, filter_app.
  set (d := run_gfs_download _ _ _ _ _ _ _ w) in *.
  destruct (run_gfs_download_launches h (args.data_dir a) (sys_executable h)
              (args.gfs_script a) (Some extra) (args.max_age_hours a)
              (args.force_download a) w) as (_ & _ & Hd).
  cbv zeta in Hd. fold d in Hd.
  eexists _, _. split; [reflexivity |]. split; [exact Hd |].
  destruct d.1; [| by left]. rewrite filter_app.
  set (r := run_forecast_plot _ _ _ _ _ _ d.2) in *.
  destruct (run_forecast_plot_launches h (args.data_dir a) (args.fig_dir a)
              (sys_executable h) (args.forecast_script a) (Some extra) d.2)
    as (_ & _ & Hr).
  cbv zeta in Hr. fold r in Hr. rewrite Hr. right.
  destruct r.1; [| done]. rewrite filter_app.
  assert (filter (λ e, is_subprocess e = true)
            (events_since r.2
               ((if args.send_email a then
                   send_images_via_email h (args.fig_dir a) (args.sender a)
                     (args.recipients a) (args.subject a) (args.body a)
                     (args.smtp_server a) (args.port a) (args.password a)
                     (args.zip_name a)
                 else mret ()) r.2).2) = []) as ->.
  { destruct (args.send_email a).
    - apply send_images_via_email_launches.
    - cbn. by rewrite events_since_refl. }
  cbn [app]. by destruct (_.1).
Qed.

Lemma pipeline_children_witness :
  ∃ download render,
    filter (λ e, is_subprocess e = true)
      (events_since sample.w (run_pipeline sample.h sample.a sample.w).2)
      = (download ++ render)%list ∧
    (download = [] ∨
     download = [Subprocess [sys_executable sample.h; args.gfs_script sample.a]
                   (download_env sample.h (args.data_dir sample.a)
                      (Some {[ "LEVEL" := "debug" ]}))]) ∧
    (render = [] ∨
     render = [Subprocess [sys_executable sample.h; args.forecast_script sample.a]
                 (render_env sample.h (args.data_dir sample.a) (args.fig_dir sample.a)
                    (Some {[ "LEVEL" := "debug" ]}))]).
Proof.
  apply (pipeline_children sample.h sample.a sample.w {[ "LEVEL" := "debug" ]} eq_refl).
Defined.

(** X8.  Unless the caller overrides them, the two children are pointed at
    the same data: the directory the download child is told to fill
    ([DATA_DIR]) is the directory the render child is told to read
    ([INPUT_DIR]), the resolved [--data-dir]; and the render child is told
    to write ([OUTPUT_DIR]) into the resolved [--fig-dir]. *)
Theorem children_share_the_data_directory (h : host) (a : args.t) (extra : environment) :
  extra !! "DATA_DIR" = None →
  extra !! "INPUT_DIR" = None →
  extra !! "OUTPUT_DIR" = None →
  let denv := download_env h (args.data_dir a) (Some extra) in
  let renv := render_env h (args.data_dir a) (args.fig_dir a) (Some extra) in
  denv !! "DATA_DIR" = Some (resolve h (args.data_dir a)) ∧
  renv !! "INPUT_DIR" = denv !! "DATA_DIR" ∧
  renv !! "OUTPUT_DIR" = Some (resolve h (args.fig_dir a)).
Proof.
  intros Hd Hi Ho. cbv zeta.
  rewrite download_env_lookup, !render_env_lookup, Hd, Hi, Ho.
  by repeat split.
Qed.

Lemma children_share_the_data_directory_witness :
  render_env sample.h "DATA" "FIGS" (Some {[ "LEVEL" := "debug" ]}) !! "INPUT_DIR"
  = download_env sample.h "DATA" (Some {[ "LEVEL" := "debug" ]}) !! "DATA_DIR".
Proof.
  apply (children_share_the_data_directory sample.h sample.a {[ "LEVEL" := "debug" ]});
    reflexivity.
Defined.

(** X9.  Without [--send-email] the pipeline never reaches the mail server,
    whatever else the arguments say and however the stages end. *)
Theorem no_mail_without_flag (h : host) (a : args.t) (w : world) :
  args.send_email a = false →
  filter (λ e, is_smtp e = true) (events_since w (run_pipeline h a w).2) = [].
Proof.
  intros Hflag.
  destruct (parse_env (default [] (args.env a)) ∅) as [extra|e] eqn:Hparse; last first.
  { rewrite run_pipeline_run, Hparse. cbn [snd]. by rewrite events_since_refl. }
  destruct (run_pipeline_events h a w extra Hparse) as [_ Hevs]. cbv zeta in Hevs.
  rewrite Hevs, Hflag, filter_app.
  destruct (run_gfs_download_launches h (args.data_dir a) (sys_executable h)
              (args.gfs_script a) (Some extra) (args.max_age_hours a)
              (args.force_download a) w) as (Hd & _).
  cbv zeta in Hd. rewrite Hd. cbn [app].
  set (d := run_gfs_download _ _ _ _ _ _ _ w) in *.
  destruct d.1; [| done]. rewrite filter_app.
  destruct (run_forecast_plot_launches h (args.data_dir a) (args.fig_dir a)
              (sys_executable h) (args.forecast_script a) (Some extra) d.2) as (Hr & _).
  cbv zeta in Hr. rewrite Hr. cbn [app].
  set (r := run_forecast_plot _ _ _ _ _ _ d.2) in *.
  destruct r.1; [| done]. cbn. by rewrite events_since_refl.
Qed.

Lemma no_mail_without_flag_witness :
  filter (λ e, is_smtp e = true)
    (events_since sample.w
       (run_pipeline sample.h
          {| args.data_dir := "DATA"; args.fig_dir := "FIGS";
             args.gfs_script := "GFS.py"; args.forecast_script := "forecast.py";
             args.env := None; args.max_age_hours := 6; args.force_download := false;
             args.send_email := false;
             args.sender := Some "ops@example.org";
             args.recipients := Some ["a@example.org"];
             args.subject := "GFS Forecast"; args.body := "Good morning";
             args.smtp_server := "smtp.example.org"; args.port := 465;
             args.password := Some "hunter2"; args.zip_name := "PVU_Figures.zip" |}
          sample.w).2) = [].
Proof.
  apply no_mail_without_flag. reflexivity.
Defined.

(** X10.  The pipeline prints its closing line exactly when it returns
    normally, and then that line is the last thing it does. *)
Theorem pipeline_finished_iff_ok (h : host) (a : args.t) (w : world) :
  let run := run_pipeline h a w in
  (run.1 = Ok () ↔ Print PipelineFinished ∈ events_since w run.2) ∧
  (run.1 = Ok () → last (events_since w run.2) = Some (Print PipelineFinished)).
Proof.
  cbv zeta.
  destruct (parse_env (default [] (args.env a)) ∅) as [extra|e] eqn:Hparse; last first.
  { rewrite run_pipeline_run, Hparse. cbn [fst snd]. rewrite events_since_refl.
    split; [| done]. split; [done | by intros ?%elem_of_nil]. }
  destruct (run_pipeline_events h a w extra Hparse) as [Hres Hevs].
  cbv zeta in Hres, Hevs. rewrite Hres, Hevs. clear Hres Hevs.
  destruct (run_gfs_download_launches h (args.data_dir a) (sys_executable h)
              (args.gfs_script a) (Some extra) (args.max_age_hours a)
              (args.force_download a) w) as (_ & Hd & _).
  cbv zeta in Hd.
  set (d := run_gfs_download _ _ _ _ _ _ _ w) in *.
  destruct (run_forecast_plot_launches h (args.data_dir a) (args.fig_dir a)
              (sys_executable h) (args.forecast_script a) (Some extra) d.2)
    as (_ & Hr & _).
  cbv zeta in Hr.
  set (r := run_forecast_plot _ _ _ _ _ _ d.2) in *.
  assert (Print PipelineFinished
            ∉ events_since r.2
                ((if args.send_email a then
                    send_images_via_email h (args.fig_dir a) (args.sender a)
                      (args.recipients a) (args.subject a) (args.body a)
                      (args.smtp_server a) (args.port a) (args.password a)
                      (args.zip_name a)
                  else mret ()) r.2).2) as Hm.
  { destruct (args.send_email a).
    - apply send_images_via_email_launches.
    - cbn. rewrite events_since_refl. apply not_elem_of_nil. }
  match goal with
  | |- context [(if args.send_email a then ?s else ?k) r.2] =>
      set (m := (if args.send_email a then s else k) r.2) in *
  end.
  destruct d.1 as [[]|e1].
  2: { rewrite app_nil_r. split; [| done]. split; [done | by intros ?%Hd]. }
  destruct r.1 as [[]|e2].
  2: { rewrite app_nil_r. split; [| done]. split; [done |].
       rewrite elem_of_app. by intros [?%Hd | ?%Hr]. }
  destruct m.1 as [[]|e3].
  2: { rewrite app_nil_r. split; [| done]. split; [done |].
       rewrite !elem_of_app. by intros [?%Hd | [?%Hr | ?%Hm]]. }
  split.
  - split; [| done]. intros _. rewrite !elem_of_app. do 3 right. by left.
  - intros _. by rewrite !app_assoc, last_snoc.
Qed.

Lemma pipeline_finished_iff_ok_witness :
  last (events_since sample.w (run_pipeline sample.h sample.a sample.w).2)
  = Some (Print PipelineFinished).
Proof.
  apply (pipeline_finished_iff_ok sample.h sample.a sample.w). reflexivity.
Defined.

(** ** The wrappers *)

(** X11.  Without the force flag the wrapper skips exactly when the gate
    says so on the directory as it was before the wrapper made it; a
    skipped download returns normally, starts no child and leaves every
    existing directory as it was. *)
Theorem skipped_download_touches_nothing (h : host)
    (data_dir python_executable gfs_script : string)
    (extra_env : option environment) (max_age_hours : Z) (w : world) :
  let run := run_gfs_download h data_dir python_executable gfs_script extra_env
               max_age_hours false w in
  (Print UpToDate ∈ events_since w run.2 ↔
   _should_skip_download (utc_now h) (w_fs w) data_dir max_age_hours = true) ∧
  (_should_skip_download (utc_now h) (w_fs w) data_dir max_age_hours = true →
   run.1 = Ok () ∧
   events_since w run.2 = [Mkdir data_dir; Print UpToDate] ∧
   ∀ q l, w_fs w !! q = Some l → w_fs run.2 !! q = Some l).
Proof.
  cbv zeta.
  assert (_should_skip_download (utc_now h) (made (w_fs w) data_dir) data_dir max_age_hours
          = _should_skip_download (utc_now h) (w_fs w) data_dir max_age_hours) as Hsame.
  { unfold _should_skip_download.
    rewrite (_latest_mtime_ext (made (w_fs w) data_dir) (w_fs w) data_dir data_dir); [done |].
    intros p. apply grib_under_made. }
  rewrite run_gfs_download_events, run_gfs_download_run. cbv zeta. cbn [negb andb].
  rewrite Hsame.
  destruct (_should_skip_download (utc_now h) (w_fs w) data_dir max_age_hours).
  - split.
    + split; [done |]. intros _. right. by left.
    + intros _. split; [done |]. split; [done |]. cbn [snd w_fs].
      intros q l Hq. unfold made. destruct (w_fs w !! data_dir) eqn:E; [done |].
      rewrite lookup_insert_ne; [done | congruence].
  - split; [| done]. split; [| done].
    rewrite !elem_of_cons. intros [? | [? | H%after_child_elem]]; discriminate.
Qed.

Lemma skipped_download_touches_nothing_witness :
  events_since sample.w
    (run_gfs_download sample.h "OLD" "/usr/bin/python3" "GFS.py" None 6 false sample.w).2
  = [Mkdir "OLD"; Print UpToDate].
Proof.
  apply (skipped_download_touches_nothing sample.h "OLD" "/usr/bin/python3" "GFS.py"
           None 6 sample.w).
  reflexivity.
Defined.

(** X12.  The render wrapper always makes the output directory and starts
    its child; it returns normally exactly when the child exits with
    status 0, and only then prints its closing line.  A child that exits
    with another status is reported as [CalledProcessError] with that
    status, a child that cannot be launched as [OSError]. *)
Theorem render_result_follows_child (h : host)
    (input_dir output_dir python_executable forecast_script : string)
    (extra_env : option environment) (w : world) :
  let run := run_forecast_plot h input_dir output_dir python_executable
               forecast_script extra_env w in
  let c := (child h [python_executable; forecast_script]
              (render_env h input_dir output_dir extra_env)
              (made (w_fs w) output_dir)).1 in
  (run.1 = Ok () ↔ c = Exited 0) ∧
  (run.1 = Ok () ↔ Print FiguresProduced ∈ events_since w run.2) ∧
  (∀ rc, c = Exited rc → rc ≠ 0 → run.1 = Raise (CalledProcessError rc)) ∧
  (c = LaunchFailed → run.1 = Raise OSError) ∧
  Mkdir output_dir ∈ events_since w run.2 ∧
  Subprocess [python_executable; forecast_script]
    (render_env h input_dir output_dir extra_env) ∈ events_since w run.2.
Proof.
  cbv zeta. rewrite run_forecast_plot_events, run_forecast_plot_run. cbv zeta.
  cbn [fst snd]. unfold after_child.
  destruct (child h _ _ _).1 as [[|rc|rc]|]; cbn [outcome exn_of].
  all: repeat split; try done; try discriminate.
  all: try (intros _; do 3 right; by left).
  all: try (right; by left).
  all: try (do 2 right; by left).
  all: try (rewrite !elem_of_cons, elem_of_nil; intuition discriminate).
  all: try (intros ? [= <-] ?; done).
Qed.

(** ** The e-mail stage *)

(** X13.  The e-mail stage only reads the file system: after it, whether
    it failed or sent its message, every path holds what it held before, so
    the archive exists in the message alone. *)
Theorem email_stage_is_read_only (h : host)
    (image_dir : string) (sender : option string) (recipients : option (list string))
    (subject body smtp_server : string) (port : Z)
    (password : option string) (zip_name : string) (w : world) :
  w_fs (send_images_via_email h image_dir sender recipients subject body
          smtp_server port password zip_name w).2 = w_fs w.
Proof.
  apply (send_images_via_email_events h image_dir sender recipients subject body
           smtp_server port password zip_name w).
Qed.

(** X14.  One call of the e-mail stage opens at most one connection.  What
    reaches the server is nothing, or a refused connection, or connect,
    login, quit, or connect, login, one message, quit: the login precedes
    the message, and a connection the server accepted is always closed,
    also when the login or the delivery fails. *)
Theorem mail_session_shape (h : host)
    (image_dir : string) (sender : option string) (recipients : option (list string))
    (subject body smtp_server : string) (port : Z)
    (password : option string) (zip_name : string) (w : world) :
  let mail := filter (λ e, is_smtp e = true)
                (events_since w
                   (send_images_via_email h image_dir sender recipients subject body
                      smtp_server port password zip_name w).2) in
  let user := default "" sender in
  mail = [] ∨
  mail = [SmtpConnect smtp_server port] ∨
  (∃ pw, mail = [SmtpConnect smtp_server port; SmtpLogin user pw; SmtpQuit]) ∨
  (∃ pw msg, mail = [SmtpConnect smtp_server port; SmtpLogin user pw;
                     SmtpSend msg; SmtpQuit]).
Proof.
  cbv zeta.
  destruct (send_images_via_email_events h image_dir sender recipients subject body
              smtp_server port password zip_name w)
    as [_ [[e ->] | [(e & n & to & ->) | (pw & H)]]].
  { cbn [snd]. rewrite events_since_refl. by left. }
  { cbn [snd]. rewrite events_since_app. by left. }
  cbv zeta in H. destruct H as (_ & _ & _ & _ & _ & Htrace).
  unfold events_since. rewrite Htrace, drop_app_length.
  rewrite filter_cons, decide_False by done. rewrite filter_app.
  unfold smtp_dialogue.
  destruct (smtp_accepts h smtp_server port); [| right; by left].
  destruct (smtp_authenticates h (default "" sender) pw); cbn [fst snd].
  - do 3 right. eexists pw, _. by destruct (smtp_delivers h _).
  - do 2 right. left. by exists pw.
Qed.

(** X15.  The e-mail stage returns normally exactly when it prints its
    closing line, and only after the server took the message: the run then
    consists of the announcement, one complete session and the closing
    line, and the message goes from the sender to the recipients joined by
    commas, with the archive attached under the requested name. *)
Theorem email_success_means_delivered (h : host)
    (image_dir : string) (sender : option string) (recipients : option (list string))
    (subject body smtp_server : string) (port : Z)
    (password : option string) (zip_name : string) (w : world) :
  let run := send_images_via_email h image_dir sender recipients subject body
               smtp_server port password zip_name w in
  (run.1 = Ok () ↔ Print EmailSent ∈ events_since w run.2) ∧
  (run.1 = Ok () →
   ∃ pw msg,
     credential h password = Some pw ∧
     smtp_delivers h msg = true ∧
     msg_from msg = default "" sender ∧
     msg_to msg = String.concat ", " (default [] recipients) ∧
     msg_filename msg = zip_name ∧
     events_since w run.2 =
       [Print (Sending (List.length (msg_attachment msg)) (msg_to msg));
        SmtpConnect smtp_server port; SmtpLogin (default "" sender) pw;
        SmtpSend msg; SmtpQuit; Print EmailSent]).
Proof.
  cbv zeta.
  destruct (send_images_via_email_events h image_dir sender recipients subject body
              smtp_server port password zip_name w)
    as [_ [[e He] | [(e & n & to & He) | (pw & H)]]].
  { rewrite He. cbn [fst snd]. rewrite events_since_refl.
    split; [| done]. split; [done | by intros ?%elem_of_nil]. }
  { rewrite He. cbn [fst snd]. rewrite events_since_app.
    split; [| done]. split; [done | by intros ?%list_elem_of_singleton]. }
  cbv zeta in H. destruct H as (_ & _ & Hpw & _ & Hres & Htrace).
  rewrite Hres. unfold events_since. rewrite Htrace, drop_app_length.
  clear Hres Htrace.
  set (msg := message_for sender recipients subject body zip_name
                (sorted (glob_png (w_fs w) image_dir))).
  unfold smtp_dialogue.
  destruct (smtp_accepts h smtp_server port); cbn [fst snd]; last first.
  { split; [| done]. split; [done |]. cbn [app].
    rewrite !elem_of_cons, elem_of_nil. intuition discriminate. }
  destruct (smtp_authenticates h (default "" sender) pw); cbn [fst snd]; last first.
  { split; [| done]. split; [done |]. cbn [app].
    rewrite !elem_of_cons, elem_of_nil. intuition discriminate. }
  destruct (smtp_delivers h msg) eqn:Hdel; last first.
  { split; [| done]. split; [done |]. cbn [app].
    rewrite !elem_of_cons, elem_of_nil. intuition discriminate. }
  split.
  - split; [| done]. intros _. do 5 right. by left.
  - intros _. exists pw, msg. repeat split; try done.
    subst msg. cbn [msg_attachment message_for].
    by rewrite length_fmap.
Qed.

Lemma email_success_means_delivered_witness :
  Print EmailSent
    ∈ events_since sample.w
        (sample.send sample.h "FIGS" (Some "ops@example.org") (Some ["a@example.org"])
           (Some "hunter2") sample.w).2.
Proof.
  apply (email_success_means_delivered sample.h "FIGS" (Some "ops@example.org")
           (Some ["a@example.org"]) "GFS Forecast" "Good morning" "smtp.example.org" 465
           (Some "hunter2") "PVU_Figures.zip" sample.w).
  reflexivity.
Defined.

(** X16.  The archive lists its entries by ascending file name, one per
    matching child, and the number the stage announces is the number of
    entries in the archive it sends. *)
Theorem archive_is_sorted_and_counted (h : host)
    (image_dir : string) (sender : option string) (recipients : option (list string))
    (subject body smtp_server : string) (port : Z)
    (password : option string) (zip_name : string) (w : world) (msg : email) :
  let evs := events_since w
               (send_images_via_email h image_dir sender recipients subject body
                  smtp_server port password zip_name w).2 in
  SmtpSend msg ∈ evs →
  ∃ paths,
    msg_attachment msg = zip_write <$> paths ∧
    Sorted (λ a b, String.leb (node_name a) (node_name b) = true) paths ∧
    List.length paths = List.length (glob_png (w_fs w) image_dir) ∧
    ∀ n to, Print (Sending n to) ∈ evs →
            n = List.length (msg_attachment msg) ∧
            to = String.concat ", " (default [] recipients).
Proof.
  cbv zeta. intros Hsend.
  destruct (send_images_via_email_mail _ _ _ _ _ _ _ _ _ _ _ _ Hsend) as [Hmsg _].
  specialize (Hmsg msg eq_refl). subst msg.
  exists (sorted (glob_png (w_fs w) image_dir)). split; [done |].
  split; [apply sorted_Sorted |]. split; [by rewrite sorted_Permutation |].
  intros n to.
  destruct (send_images_via_email_events h image_dir sender recipients subject body
              smtp_server port password zip_name w)
    as [_ [[e He] | [(e & k & to' & He) | (pw & H)]]].
  { revert Hsend. rewrite He. cbn [snd]. rewrite events_since_refl.
    by intros ?%elem_of_nil. }
  { revert Hsend. rewrite He. cbn [snd]. rewrite events_since_app.
    by intros ?%list_elem_of_singleton. }
  cbv zeta in H. destruct H as (_ & _ & _ & _ & _ & Htrace).
  unfold events_since. rewrite Htrace, drop_app_length.
  cbn [msg_attachment message_for]. rewrite length_fmap.
  rewrite elem_of_cons, elem_of_app. intros [[= -> ->] | [Hin | Hin]]; [done | |].
  - exfalso. revert Hin. unfold smtp_dialogue.
    destruct (smtp_accepts h smtp_server port);
      [destruct (smtp_authenticates h (default "" sender) pw) |]; cbn [snd];
      rewrite !elem_of_cons, elem_of_nil; intuition discriminate.
  - exfalso. destruct (smtp_dialogue _ _ _ _ _ _).1; [| by apply elem_of_nil in Hin].
    by apply list_elem_of_singleton in Hin.
Qed.

Lemma archive_is_sorted_and_counted_witness :
  ∃ paths,
    zip_write <$> [sample.a_png; sample.b_png] = zip_write <$> paths ∧
    Sorted (λ a b, String.leb (node_name a) (node_name b) = true) paths.
Proof.
  set (msg := message_for (Some "ops@example.org") (Some ["a@example.org"])
                "GFS Forecast" "Good morning" "PVU_Figures.zip"
                [sample.a_png; sample.b_png]).
  assert (SmtpSend msg
            ∈ events_since sample.w
                (send_images_via_email sample.h "FIGS" (Some "ops@example.org")
                   (Some ["a@example.org"]) "GFS Forecast" "Good morning"
                   "smtp.example.org" 465 (Some "hunter2") "PVU_Figures.zip"
                   sample.w).2) as Hsend.
  { assert (events_since sample.w
              (send_images_via_email sample.h "FIGS" (Some "ops@example.org")
                 (Some ["a@example.org"]) "GFS Forecast" "Good morning"
                 "smtp.example.org" 465 (Some "hunter2") "PVU_Figures.zip" sample.w).2
            = sample.exchange "ops@example.org" "hunter2" ["a@example.org"]
                [sample.a_png; sample.b_png]) as -> by (by vm_compute).
    do 3 right. by left. }
  destruct (archive_is_sorted_and_counted _ _ _ _ _ _ _ _ _ _ _ _ Hsend)
    as (paths & Hatt & Hsorted & _).
  exists paths. by split.
Defined.

(** * Properties of the rendering script *)

(** ** Input files *)

Ltac literal H name :=
  destruct name as [|? name]; [discriminate H |];
  cbn [forecast.matches] in H;
  apply andb_true_iff in H as [?%Ascii.eqb_eq H]; subst.

(** X17.  Every file the rendering script takes as input is a file the
    freshness gate counts: a name matching [gfs.t??z.pgrb2.0p25.f*] carries
    the marker [grb2], so a data directory in which the script finds work
    always has a newest marked file for the gate to date. *)
Theorem rendered_inputs_are_seen_by_gate (name : string) :
  forecast.matches (forecast.tokens forecast.GFS_PATTERN) name = true →
  is_grib_name name = true ∧
  ∀ (fs : filesystem) d children p,
    fs !! d = Some children → p ∈ children → node_name p = name →
    is_Some (_latest_mtime fs d).
Proof.
  intros H.
  assert (is_grib_name name = true) as Hgrib.
  { change (forecast.tokens forecast.GFS_PATTERN)
      with (forecast.Lit "g" :: forecast.Lit "f" :: forecast.Lit "s" ::
            forecast.Lit "." :: forecast.Lit "t" :: forecast.Question ::
            forecast.Question :: forecast.Lit "z" :: forecast.Lit "." ::
            forecast.Lit "p" :: forecast.Lit "g" :: forecast.Lit "r" ::
            forecast.Lit "b" :: forecast.Lit "2" :: forecast.Lit "." ::
            forecast.Lit "0" :: forecast.Lit "p" :: forecast.Lit "2" ::
            forecast.Lit "5" :: forecast.Lit "." :: forecast.Lit "f" ::
            [forecast.Star]) in H.
    do 5 literal H name.
    destruct name as [|c1 name]; [discriminate H |]. cbn [forecast.matches] in H.
    destruct name as [|c2 name]; [discriminate H |]. cbn [forecast.matches] in H.
    do 14 literal H name.
    unfold is_grib_name. apply orb_true_iff. left. apply StrFacts.contains_iff.
    exists ("gfs.t" ++ String (Str.lower_ascii c1) (String (Str.lower_ascii c2) "z.p"))%string,
           (".0p25.f" ++ Str.lower name)%string.
    reflexivity. }
  split; [done |].
  intros fs d children p Hd Hp Hname.
  destruct (_latest_mtime fs d) as [t|] eqn:E; [by eexists |]. exfalso.
  eapply _latest_mtime_None; [exact E |].
  exists children. split; [done |]. split; [by apply inside_here |]. by rewrite Hname.
Qed.

Lemma rendered_inputs_are_seen_by_gate_witness :
  is_grib_name "gfs.t00z.pgrb2.0p25.f000" = true.
Proof.
  apply (rendered_inputs_are_seen_by_gate "gfs.t00z.pgrb2.0p25.f000"). reflexivity.
Defined.

(** ** Dates and figure names *)

Lemma digit_code (n : nat) : nat_of_ascii (forecast.digit n) = (48 + n mod 10)%nat.
Proof.
  unfold forecast.digit. apply nat_ascii_embedding.
  pose proof (Nat.mod_upper_bound n 10). lia.
Qed.

Lemma digit_eq (a b : nat) :
  forecast.digit a = forecast.digit b → (a mod 10 = b mod 10)%nat.
Proof.
  intros H. apply (f_equal nat_of_ascii) in H. rewrite !digit_code in H. lia.
Qed.

Lemma two_digits (a b : nat) :
  (a < 100)%nat → (b < 100)%nat →
  forecast.digit (a / 10) = forecast.digit (b / 10) →
  forecast.digit a = forecast.digit b →
  a = b.
Proof.
  intros Ha Hb H1%digit_eq H0%digit_eq.
  pose proof (Nat.div_mod_eq a 10). pose proof (Nat.div_mod_eq b 10).
  assert (a / 10 < 10)%nat by (apply Nat.Div0.div_lt_upper_bound; lia).
  assert (b / 10 < 10)%nat by (apply Nat.Div0.div_lt_upper_bound; lia).
  rewrite !Nat.mod_small in H1 by done. lia.
Qed.

Lemma four_digits (a b : nat) :
  (a < 100 * 100)%nat → (b < 100 * 100)%nat →
  forecast.digit (a / 1000) = forecast.digit (b / 1000) →
  forecast.digit (a / 100) = forecast.digit (b / 100) →
  forecast.digit (a / 10) = forecast.digit (b / 10) →
  forecast.digit a = forecast.digit b →
  a = b.
Proof.
  intros Ha Hb H3%digit_eq H2%digit_eq H1%digit_eq H0%digit_eq.
  assert (∀ n, (n < 100 * 100)%nat →
               n = (1000 * ((n / 1000) mod 10) + 100 * ((n / 100) mod 10) +
                    10 * ((n / 10) mod 10) + n mod 10)%nat) as Hdec.
  { intros n Hn.
    pose proof (Nat.div_mod_eq n 10). pose proof (Nat.div_mod_eq (n / 10) 10).
    pose proof (Nat.div_mod_eq (n / 10 / 10) 10).
    assert (n / 10 / 10 / 10 < 10)%nat
      by (repeat (apply Nat.Div0.div_lt_upper_bound); lia).
    replace (n / 100)%nat with (n / 10 / 10)%nat by (by rewrite Nat.Div0.div_div).
    replace (n / 1000)%nat with (n / 10 / 10 / 10)%nat by (by rewrite !Nat.Div0.div_div).
    rewrite (Nat.mod_small (n / 10 / 10 / 10)) by done. lia. }
  rewrite (Hdec a Ha), (Hdec b Hb). lia.
Qed.

Lemma digit_is_no_slash (n : nat) : Ascii.eqb (forecast.digit n) "/" = false.
Proof.
  apply Ascii.eqb_neq. intros H. apply (f_equal nat_of_ascii) in H.
  rewrite digit_code in H. change (nat_of_ascii "/") with 47%nat in H. lia.
Qed.

(** X18.  Two figures get the same file name exactly when they show the
    same product for the same valid date and hour: the minutes are not in
    the name, so files that are valid in the same hour overwrite each
    other's figures, and nothing else does. *)
Theorem figure_names_collide_iff (p p' : forecast.product) (t t' : forecast.timestamp) :
  forecast.well_formed t → forecast.well_formed t' →
  forecast.figure_name p (forecast._format_datetime t).1 =
  forecast.figure_name p' (forecast._format_datetime t').1 ↔
  p = p' ∧ forecast.year t = forecast.year t' ∧ forecast.month t = forecast.month t' ∧
  forecast.day t = forecast.day t' ∧ forecast.hour t = forecast.hour t'.
Proof.
  intros (Hy & Hm & Hd & Hh & _) (Hy' & Hm' & Hd' & Hh' & _). split.
  - intros H.
    destruct p, p';
      cbv [forecast.figure_name forecast.stem forecast._format_datetime fst
           forecast.pad4 forecast.pad2 String.append] in H;
      try discriminate H.
    all: injection H as H1 H2 H3 H4 H5 H6 H7 H8 H9 H10.
    all: split; [done |].
    all: repeat split;
      [apply four_digits | apply two_digits | apply two_digits | apply two_digits];
      (done || lia).
  - by intros (-> & Hye & Hme & Hde & Hhe); cbv [forecast._format_datetime fst];
      rewrite Hye, Hme, Hde, Hhe.
Qed.

Lemma figure_names_collide_iff_witness :
  forecast.figure_name forecast.Temp2m (forecast._format_datetime forecast.noon).1 =
  forecast.figure_name forecast.Temp2m
    (forecast._format_datetime
       {| forecast.year := 2024; forecast.month := 3; forecast.day := 9;
          forecast.hour := 12; forecast.minute := 30 |}).1.
Proof.
  apply (figure_names_collide_iff forecast.Temp2m forecast.Temp2m forecast.noon
           {| forecast.year := 2024; forecast.month := 3; forecast.day := 9;
              forecast.hour := 12; forecast.minute := 30 |}).
  - unfold forecast.well_formed. cbn. lia.
  - unfold forecast.well_formed. cbn. lia.
  - by repeat split.
Defined.

(** Whatever the valid time, a figure name ends in [.png] and holds no
    slash. *)
Lemma figure_name_png (p : forecast.product) (t : forecast.timestamp) :
  let name := forecast.figure_name p (forecast._format_datetime t).1 in
  Str.endswith name ".png" = true ∧ Str.contains "/" name = false.
Proof.
  cbv zeta. split.
  - apply StrFacts.endswith_iff.
    exists (forecast.stem p ++ "_" ++ (forecast._format_datetime t).1)%string.
    unfold forecast.figure_name.
    generalize (forecast._format_datetime t).1. intros d.
    destruct p; cbv [forecast.stem]; StrFacts.push_append;
      repeat f_equal; induction d as [|c d IH]; StrFacts.push_append; congruence.
  - destruct p;
      cbv [forecast.figure_name forecast.stem forecast._format_datetime fst
           forecast.pad4 forecast.pad2 String.append];
      rewrite !contains_char_cons, !digit_is_no_slash; reflexivity.
Qed.

(** ** The loop over the input files *)

Lemma bind_out {A B} (m : forecast.script A) (k : A → forecast.script B) :
  (forecast.bind m k).1 =
  (m.1 ++ match m.2 with inr a => (k a).1 | inl _ => [] end)%list.
Proof.
  destruct m as [out [e|a]]; simpl; [by rewrite app_nil_r |].
  by destruct (k a).
Qed.

Lemma bind_end {A B} (m : forecast.script A) (k : A → forecast.script B) :
  (forecast.bind m k).2 = match m.2 with inr a => (k a).2 | inl e => inl e end.
Proof.
  destruct m as [out [e|a]]; simpl; [done |]. by destruct (k a).
Qed.

Lemma bind_Forall {A B} (Q : forecast.output → Prop)
    (m : forecast.script A) (k : A → forecast.script B) :
  Forall Q m.1 → (∀ a, Forall Q (k a).1) → Forall Q (forecast.bind m k).1.
Proof.
  intros Hm Hk. rewrite bind_out. apply Forall_app. split; [done |].
  destruct m.2; [constructor | apply Hk].
Qed.

Lemma step_Forall (Q : forecast.output → Prop) (answer : option forecast.exception) :
  Forall Q (forecast.step answer).1.
Proof. destruct answer; constructor. Qed.

Lemma figure_outputs (lib : forecast.library) (grib : string)
    (p : forecast.product) (t : forecast.timestamp) :
  Forall forecast.body_output (forecast.figure lib grib p (forecast._format_datetime t).1).1.
Proof.
  unfold forecast.figure, forecast._save.
  apply bind_Forall; [apply step_Forall |]. intros _.
  apply bind_Forall; [apply step_Forall |]. intros _.
  apply bind_Forall; intros; repeat constructor. by exists p, t.
Qed.

Lemma open_tp_outputs (lib : forecast.library) (grib : string) :
  Forall forecast.body_output (forecast.open_tp lib grib).1.
Proof.
  unfold forecast.open_tp, forecast.step, forecast.bind, forecast.fail, forecast.ret.
  destruct (forecast.open_var lib grib "tp" None) as [[]|];
    [repeat constructor .. |].
  destruct (forecast.fields lib grib forecast.TotPrec) as [[]|]; repeat constructor.
Qed.

Lemma products_outputs (lib : forecast.library) (grib : string) :
  Forall forecast.body_output (forecast.products lib grib).1.
Proof.
  unfold forecast.products.
  do 2 (apply bind_Forall; [apply step_Forall |]; intros _).
  apply bind_Forall; [destruct (forecast.valid_time lib grib); constructor |]. intros t.
  pose proof (figure_outputs lib grib) as Hfig.
  destruct (forecast._format_datetime t) as [data_str human_date] eqn:E.
  assert (data_str = (forecast._format_datetime t).1) as -> by (by rewrite E).
  repeat first
    [ apply bind_Forall; [first [apply step_Forall | apply Hfig | apply open_tp_outputs] |];
      intros ?
    | apply Hfig ].
  match goal with |- context [if ?b then _ else _] => destruct b end;
    [apply Hfig | constructor].
Qed.

Lemma process_run (lib : forecast.library) (grib : string) :
  (forecast.process lib grib).2 = inr () ∧
  forecast.processed (forecast.process lib grib).1 = [grib] ∧
  Forall (λ o, o = forecast.Processing grib ∨
               (∃ e, o = forecast.ErrorProcessing grib e) ∨ forecast.body_output o)
    (forecast.process lib grib).1.
Proof.
  pose proof (products_outputs lib grib) as Hbody.
  unfold forecast.process, forecast.guarded, forecast.say.
  rewrite bind_out, bind_end. cbn [fst snd].
  destruct (forecast.products lib grib) as [out [e|[]]]; cbn [fst snd] in *.
  - split; [done |]. split.
    + unfold forecast.processed. cbn [omap list_omap app]. f_equal.
      rewrite omap_app. cbn. rewrite app_nil_r.
      induction Hbody as [|o out Ho _ IH]; [done |]. cbn. by destruct o.
    + constructor; [by left |]. apply Forall_app. split.
      * eapply Forall_impl; [exact Hbody |]. intros o Ho. by do 2 right.
      * apply Forall_singleton. right. left. by eexists.
  - split; [done |]. split.
    + unfold forecast.processed. cbn [omap list_omap app]. f_equal.
      induction Hbody as [|o out Ho _ IH]; [done |]. cbn. by destruct o.
    + constructor; [by left |].
      eapply Forall_impl; [exact Hbody |]. intros o Ho. by do 2 right.
Qed.

Lemma turn_run (lib : forecast.library) (g : string) :
  forecast.turn lib g =
  match forecast.announce lib g with
  | Some e => ([], inl e)
  | None => ((forecast.process lib g).1, inr ())
  end.
Proof.
  unfold forecast.turn. destruct (forecast.announce lib g) as [e|]; [done |].
  destruct (process_run lib g) as (Hend & _).
  destruct (forecast.process lib g) as [out r]. cbn [snd] in Hend. by subst r.
Qed.

(** With every announcement printed the loop runs through all files. *)
Lemma for_each_run (lib : forecast.library) (files : list string) :
  Forall (λ g, forecast.announce lib g = None) files →
  forecast.for_each lib files =
  (flat_map (λ g, (forecast.process lib g).1) files, inr ()).
Proof.
  induction 1 as [|g files Hg _ IH]; [done |].
  cbn [forecast.for_each flat_map]. rewrite turn_run, Hg, IH. done.
Qed.

(** The first announcement that cannot be printed ends the loop. *)
Lemma for_each_stops (lib : forecast.library) (before after : list string)
    (g : string) (e : forecast.exception) :
  Forall (λ g, forecast.announce lib g = None) before →
  forecast.announce lib g = Some e →
  forecast.for_each lib (before ++ g :: after) =
  (flat_map (λ g, (forecast.process lib g).1) before, inl e).
Proof.
  intros Hbefore Hg. induction Hbefore as [|g' before Hg' _ IH].
  - cbn [app forecast.for_each flat_map]. by rewrite turn_run, Hg.
  - cbn [app forecast.for_each flat_map]. rewrite turn_run, Hg', IH. done.
Qed.

(** Whatever the loop puts out is the output of one of its turns. *)
Lemma for_each_outputs (lib : forecast.library) (files : list string) :
  Forall (λ o, ∃ g, o ∈ (forecast.process lib g).1) (forecast.for_each lib files).1.
Proof.
  induction files as [|g files IH]; [constructor |].
  cbn [forecast.for_each]. apply bind_Forall; [| by intros _].
  rewrite turn_run. destruct (forecast.announce lib g); [constructor |].
  cbn [fst]. apply Forall_forall. intros o Ho. by exists g.
Qed.

Lemma processed_outputs (lib : forecast.library) (files : list string) :
  forecast.processed (flat_map (λ g, (forecast.process lib g).1) files) = files.
Proof.
  induction files as [|g files IH]; [done |].
  cbn [flat_map]. unfold forecast.processed in *. rewrite omap_app.
  destruct (process_run lib g) as (_ & Hg & _).
  unfold forecast.processed in Hg. rewrite Hg. cbn [app]. by f_equal.
Qed.

Lemma insert_name_Permutation (s : string) (l : list string) :
  forecast.insert_name s l ≡ₚ s :: l.
Proof.
  induction l as [|t l IH]; simpl; [done |].
  destruct (String.leb s t); [done |]. rewrite IH. apply Permutation_swap.
Qed.

Lemma sort_names_Permutation (l : list string) : forecast.sort_names l ≡ₚ l.
Proof.
  induction l as [|s l IH]; simpl; [done |].
  by rewrite insert_name_Permutation, IH.
Qed.

Lemma insert_name_Sorted (s : string) (l : list string) :
  Sorted (λ a b, String.leb a b = true) l →
  Sorted (λ a b, String.leb a b = true) (forecast.insert_name s l).
Proof.
  induction 1 as [|t l Hl IH Hhd]; simpl.
  - by repeat constructor.
  - destruct (String.leb s t) eqn:E.
    + constructor; [by constructor |]. by constructor.
    + constructor; [done |].
      assert (String.leb t s = true) as Hts
        by (by destruct (String.leb_total s t) as [? | ?]; [congruence |]).
      destruct l as [|u l]; simpl; [by constructor |].
      destruct (String.leb s u); constructor; [done |]. by inversion Hhd.
Qed.

Lemma sort_names_Sorted (l : list string) :
  Sorted (λ a b, String.leb a b = true) (forecast.sort_names l).
Proof.
  induction l as [|s l IH]; simpl; [constructor | by apply insert_name_Sorted].
Qed.

(** X19.  On file names of ASCII bytes, the script ends with an exception
    in three cases only.  When the [mkdir] at its top fails, nothing else
    happens.  When no name matches, it raises [FileNotFoundError] before it
    looks into any file.  When the announcement of a file cannot be
    printed, the script stops there: the files before it have had their
    turn, the others have not.  Whatever the libraries raise inside the
    work on a file never ends the script: with every announcement printed
    it ends normally, having announced every matching file once, in
    ascending order of name, and its output is the outputs of the files one
    after the other. *)
Theorem script_outcome (lib : forecast.library) (names : list string) :
  Forall (λ n, forecast.ascii_only n = true) names →
  let files := forecast.grib_files names in
  let outputs := flat_map (λ g, (forecast.process lib g).1) in
  files ≡ₚ filter (λ n, forecast.matches (forecast.tokens forecast.GFS_PATTERN) n = true)
             names ∧
  Sorted (λ a b, String.leb a b = true) files ∧
  (∀ e, forecast.make_output_dir lib = Some e → forecast.main lib names = ([], inl e)) ∧
  (forecast.make_output_dir lib = None →
   (files = [] →
    forecast.main lib names = ([forecast.MakeOutputDir], inl forecast.FileNotFoundError)) ∧
   (files ≠ [] →
    (Forall (λ g, forecast.announce lib g = None) files →
     forecast.main lib names = (forecast.MakeOutputDir :: outputs files, inr ()) ∧
     forecast.processed (forecast.main lib names).1 = files) ∧
    (∀ before g after e,
       files = (before ++ g :: after)%list →
       Forall (λ g, forecast.announce lib g = None) before →
       forecast.announce lib g = Some e →
       forecast.main lib names = (forecast.MakeOutputDir :: outputs before, inl e) ∧
       forecast.processed (forecast.main lib names).1 = before))).
Proof.
  intros _. cbv zeta.
  split; [apply sort_names_Permutation |]. split; [apply sort_names_Sorted |].
  unfold forecast.main. generalize (forecast.grib_files names). intros files.
  split; [by intros e -> |]. intros ->. split; [by intros -> |]. intros Hfiles.
  destruct files as [|g0 files]; [done |]. clear Hfiles.
  cbn [forecast.step forecast.ret forecast.bind forecast.say app].
  split.
  - intros Hall. rewrite (for_each_run lib (g0 :: files) Hall). split; [done |].
    cbn [fst]. unfold forecast.processed. cbn [omap list_omap].
    apply (processed_outputs lib (g0 :: files)).
  - intros before g after e -> Hbefore Hg.
    rewrite (for_each_stops lib before after g e Hbefore Hg). split; [done |].
    cbn [fst]. unfold forecast.processed. cbn [omap list_omap].
    apply (processed_outputs lib before).
Qed.

Lemma script_outcome_witness :
  let names := ["gfs.t00z.pgrb2.0p25.f003"; "README"; "gfs.t00z.pgrb2.0p25.f000"] in
  Forall (λ n, forecast.ascii_only n = true) names ∧
  forecast.processed (forecast.main (forecast.obliging forecast.noon) names).1
  = ["gfs.t00z.pgrb2.0p25.f000"; "gfs.t00z.pgrb2.0p25.f003"] ∧
  (forecast.main (forecast.obliging forecast.noon) names).2 = inr () ∧
  forecast.main (forecast.obliging forecast.noon) ["README"]
  = ([forecast.MakeOutputDir], inl forecast.FileNotFoundError).
Proof.
  cbv zeta.
  assert (Forall (λ n, forecast.ascii_only n = true)
            ["gfs.t00z.pgrb2.0p25.f003"; "README"; "gfs.t00z.pgrb2.0p25.f000"]) as Hascii
    by (repeat constructor).
  split; [exact Hascii |].
  destruct (script_outcome (forecast.obliging forecast.noon) _ Hascii)
    as (_ & _ & _ & Hrun).
  destruct (Hrun eq_refl) as [_ Hsome].
  destruct Hsome as [Hall _]; [discriminate |].
  destruct Hall as [Hmain Hprocessed]; [repeat constructor |].
  split; [exact Hprocessed |]. split; [by rewrite Hmain |].
  assert (Forall (λ n, forecast.ascii_only n = true) ["README"]) as Hreadme
    by (repeat constructor).
  destruct (script_outcome (forecast.obliging forecast.noon) _ Hreadme)
    as (_ & _ & _ & Hnone).
  destruct (Hnone eq_refl) as [Hempty _]. by apply Hempty.
Defined.

(** Whatever the script puts out is the line of its [mkdir] or the output
    of the work on one file. *)
Lemma main_outputs (lib : forecast.library) (names : list string) :
  Forall (λ o, o = forecast.MakeOutputDir ∨ ∃ g, o ∈ (forecast.process lib g).1)
    (forecast.main lib names).1.
Proof.
  unfold forecast.main.
  apply bind_Forall; [apply step_Forall |]. intros _.
  apply bind_Forall; [repeat constructor; by left |]. intros _.
  destruct (forecast.grib_files names) as [|g files]; [constructor |].
  eapply Forall_impl; [apply for_each_outputs |]. intros o Ho. by right.
Qed.

Lemma elem_of_saved (f : string) (out : list forecast.output) :
  f ∈ forecast.saved out ↔ forecast.Saved f ∈ out.
Proof.
  unfold forecast.saved. rewrite list_elem_of_omap. split.
  - intros (o & Ho & Hf). destruct o; try discriminate. by injection Hf as ->.
  - intros Ho. by exists (forecast.Saved f).
Qed.

(** X20.  Every figure a run of the script writes carries a figure name:
    it ends in [.png] and holds no slash, so it lies in the output
    directory itself and the pattern [*.png] of the e-mail stage matches
    it. *)
Theorem saved_figures_are_png (lib : forecast.library) (names : list string) (f : string) :
  f ∈ forecast.saved (forecast.main lib names).1 →
  (∃ p t, f = forecast.figure_name p (forecast._format_datetime t).1) ∧
  Str.endswith f ".png" = true ∧
  Str.contains "/" f = false.
Proof.
  rewrite elem_of_saved. intros Hf.
  assert (∃ p t, f = forecast.figure_name p (forecast._format_datetime t).1)
    as (p & t & ->).
  { pose proof (main_outputs lib names) as Hmain. rewrite Forall_forall in Hmain.
    destruct (Hmain _ Hf) as [? | [g' Hg']]; [discriminate |].
    destruct (process_run lib g') as (_ & _ & Hall).
    rewrite Forall_forall in Hall.
    destruct (Hall _ Hg') as [? | [[e ?] | Hbody]]; [discriminate | discriminate |].
    exact Hbody. }
  split; [by exists p, t |]. apply figure_name_png.
Qed.

Lemma saved_figures_are_png_witness :
  Str.endswith "Temp2m_20240309_12.png" ".png" = true ∧
  Str.contains "/" "Temp2m_20240309_12.png" = false.
Proof.
  apply (saved_figures_are_png (forecast.obliging forecast.noon)
           ["gfs.t00z.pgrb2.0p25.f000"] "Temp2m_20240309_12.png").
  apply elem_of_saved.
  assert (forecast.main (forecast.obliging forecast.noon) ["gfs.t00z.pgrb2.0p25.f000"]
          = ([forecast.MakeOutputDir; forecast.Processing "gfs.t00z.pgrb2.0p25.f000";
              forecast.Saved "Temp2m_20240309_12.png";
              forecast.Arrow "Temp2m_20240309_12.png";
              forecast.Saved "Wind10m_20240309_12.png";
              forecast.Arrow "Wind10m_20240309_12.png";
              forecast.Saved "pressure_thickness_20240309_12.png";
              forecast.Arrow "pressure_thickness_20240309_12.png";
              forecast.Saved "TotPrec_20240309_12.png";
              forecast.Arrow "TotPrec_20240309_12.png"], inr ())) as -> by reflexivity.
  right. right. by left.
Defined.

Ltac close_with d :=
  cbn;
  first [ exists 0%nat, d; split; [reflexivity |]
        | exists 1%nat, d; split; [reflexivity |]
        | exists 2%nat, d; split; [reflexivity |]
        | exists 3%nat, d; split; [reflexivity |]
        | exists 4%nat, d; split; [reflexivity |] ];
  first [ intros ?; exfalso; lia
        | intros _; eexists; apply list_elem_of_In; cbn; auto 20 ].

(** X21.  The figures of one input file are drawn in a fixed order and a
    failure ends the work on that file: what is saved for a file is an
    initial part of temperature, wind, thickness, precipitation, all named
    after the valid time of the file.  When fewer than three figures are
    saved, the script has printed the error line of that file. *)
Theorem figures_form_a_prefix (lib : forecast.library) (grib : string) :
  ∃ n data_str,
    forecast.saved (forecast.process lib grib).1 = take n (forecast.planned data_str) ∧
    ((n < 3)%nat → ∃ e, forecast.ErrorProcessing grib e ∈ (forecast.process lib grib).1).
Proof.
  unfold forecast.process, forecast.products, forecast.guarded, forecast.figure,
    forecast._save, forecast.open_tp, forecast.step.
  destruct (forecast.open_var lib grib "2t" None); [close_with "" |].
  destruct (forecast.fields lib grib forecast.Temp2m); [close_with "" |].
  destruct (forecast.valid_time lib grib) as [e|t]; [close_with "" |].
  cbv beta iota zeta delta [forecast.bind forecast.ret forecast.fail forecast.say].
  set (d := (forecast._format_datetime t).1).
  assert (forecast._format_datetime t = (d, (forecast._format_datetime t).2)) as ->
    by (subst d; by destruct (forecast._format_datetime t)).
  destruct (forecast.draw lib grib forecast.Temp2m); [close_with d |].
  destruct (forecast.savefig lib (forecast.figure_name forecast.Temp2m d));
    [close_with d |].
  destruct (forecast.open_var lib grib "10u" None); [close_with d |].
  destruct (forecast.open_var lib grib "10v" None); [close_with d |].
  destruct (forecast.draw lib grib forecast.Wind10m); [close_with d |].
  destruct (forecast.savefig lib (forecast.figure_name forecast.Wind10m d));
    [close_with d |].
  destruct (forecast.open_var lib grib "prmsl" None); [close_with d |].
  destruct (forecast.fields lib grib forecast.PressureThickness); [close_with d |].
  destruct (forecast.open_var lib grib "gh" (Some 1000%nat)); [close_with d |].
  destruct (forecast.open_var lib grib "gh" (Some 500%nat)); [close_with d |].
  destruct (forecast.draw lib grib forecast.PressureThickness); [close_with d |].
  destruct (forecast.savefig lib (forecast.figure_name forecast.PressureThickness d));
    [close_with d |].
  destruct (forecast.open_var lib grib "tp" None) as [[]|]; [close_with d .. |].
  destruct (forecast.fields lib grib forecast.TotPrec) as [[]|]; [close_with d .. |].
  destruct (forecast.draw lib grib forecast.TotPrec); [close_with d |].
  destruct (forecast.savefig lib (forecast.figure_name forecast.TotPrec d));
    close_with d.
Qed.

(** X22.  A file without a precipitation field is not a failure: when
    opening [tp] raises [FileNotFoundError], [ValueError] or [RuntimeError]
    and everything else works, the file gets its three other figures and
    the note that [tp] was not found, and no error line.  Any other
    exception at that point is reported as the error of the file; the three
    figures have been written by then. *)
Theorem missing_precipitation_is_not_an_error (lib : forecast.library) (grib : string)
    (t : forecast.timestamp) (e : forecast.exception) :
  (∀ short_name level,
     short_name ≠ "tp" → forecast.open_var lib grib short_name level = None) →
  (∀ p, p ≠ forecast.TotPrec → forecast.fields lib grib p = None) →
  forecast.valid_time lib grib = inr t →
  (∀ p, p ≠ forecast.TotPrec → forecast.draw lib grib p = None) →
  (∀ f, forecast.savefig lib f = None) →
  forecast.open_var lib grib "tp" None = Some e →
  let d := (forecast._format_datetime t).1 in
  forecast.process lib grib =
  ([forecast.Processing grib;
    forecast.Saved (forecast.figure_name forecast.Temp2m d);
    forecast.Arrow (forecast.figure_name forecast.Temp2m d);
    forecast.Saved (forecast.figure_name forecast.Wind10m d);
    forecast.Arrow (forecast.figure_name forecast.Wind10m d);
    forecast.Saved (forecast.figure_name forecast.PressureThickness d);
    forecast.Arrow (forecast.figure_name forecast.PressureThickness d);
    match e with
    | forecast.OtherException _ => forecast.ErrorProcessing grib e
    | _ => forecast.TpNotFound
    end],
   inr ()).
Proof.
  intros Hopen Hfields Htime Hdraw Hsave Htp d.
  unfold forecast.process, forecast.products, forecast.guarded, forecast.figure,
    forecast._save, forecast.open_tp.
  rewrite Htime, Htp.
  rewrite (Hopen "2t"), (Hopen "10u"), (Hopen "10v"), (Hopen "prmsl"), !(Hopen "gh")
    by discriminate.
  rewrite (Hfields forecast.Temp2m), (Hfields forecast.PressureThickness) by discriminate.
  rewrite (Hdraw forecast.Temp2m), (Hdraw forecast.Wind10m),
    (Hdraw forecast.PressureThickness) by discriminate.
  subst d.
  cbv beta iota zeta delta [forecast.bind forecast.ret forecast.fail forecast.say
                            forecast.step].
  destruct (forecast._format_datetime t) as [data_str human_date].
  cbv beta iota zeta delta [fst]. rewrite !Hsave. by destruct e.
Qed.

Lemma missing_precipitation_is_not_an_error_witness :
  forecast.process (forecast.without_tp forecast.noon) "gfs.t00z.pgrb2.0p25.f000" =
  ([forecast.Processing "gfs.t00z.pgrb2.0p25.f000";
    forecast.Saved "Temp2m_20240309_12.png";
    forecast.Arrow "Temp2m_20240309_12.png";
    forecast.Saved "Wind10m_20240309_12.png";
    forecast.Arrow "Wind10m_20240309_12.png";
    forecast.Saved "pressure_thickness_20240309_12.png";
    forecast.Arrow "pressure_thickness_20240309_12.png";
    forecast.TpNotFound],
   inr ()).
Proof.
  apply (missing_precipitation_is_not_an_error (forecast.without_tp forecast.noon)
           "gfs.t00z.pgrb2.0p25.f000" forecast.noon forecast.ValueError).
  - intros short_name level Hname. cbn.
    destruct (String.eqb_spec short_name "tp"); [done | done].
  - done.
  - done.
  - done.
  - done.
  - done.
Defined.
